(** * rusty-ts: Rust-inspired [Option] and [Result] for TypeScript

    A shallow embedding of [src/private/OptionImpl.ts],
    [src/private/ResultImpl.ts], [src/private/UnwrapError.ts] and the
    factory namespaces of [src/index.ts], followed by the properties of
    the library that the specification states.

    The library is TypeScript, so its run-time is untyped JavaScript: one
    universe of values, objects that have an identity, exceptions, and
    callbacks supplied by the caller.  The embedding keeps all four. *)

From Stdlib Require Import List String ZArith Bool Arith Lia.
Import ListNotations.
Local Open Scope string_scope.
Local Open Scope list_scope.
Set Warnings "-register-all".

(** ** JavaScript values

    Primitives are compared by content, objects by reference.  Every
    object carries the reference it was allocated at ([ref]): two objects
    are the same object exactly when they are equal here, and a copy of an
    object differs from it by its reference.

    [OptionImpl] and [ResultImpl] instances are the records of their two
    private fields, as the classes declare them:
    [private isNone_: boolean, private value: T | undefined] and
    [private isErr_: boolean, private value: T | E].

    Numbers are restricted to the integers, and objects to errors,
    arrays and the two classes of the library: the library never looks
    into a payload, except to call [match] on it in [transpose].
    Functions are not values here: a callback is a function of Rocq. *)
Inductive Value : Type :=
| VUndefined
| VNull
| VBoolean (b : bool)
| VNumber (n : Z)
| VString (s : string)
| VError (ref : nat) (name message : string)
| VArray (ref : nat) (items : list Value)
| VOption (o : Option)
| VResult (r : Result)
with Option : Type :=
| mkOptionImpl (ref : nat) (isNone_ : bool) (value : Value)
with Result : Type :=
| mkResultImpl (ref : nat) (isErr_ : bool) (value : Value).

(** [typeof v] *)
Definition typeof (v : Value) : string :=
  match v with
  | VUndefined => "undefined"
  | VBoolean _ => "boolean"
  | VNumber _ => "number"
  | VString _ => "string"
  | VNull | VError _ _ _ | VArray _ _ | VOption _ | VResult _ => "object"
  end.

(** The reference of an object; primitives have none. *)
Definition refOf (v : Value) : option nat :=
  match v with
  | VError ref _ _ | VArray ref _ => Some ref
  | VOption (mkOptionImpl ref _ _) => Some ref
  | VResult (mkResultImpl ref _ _) => Some ref
  | _ => None
  end.

(** [a === b]: primitives by content, objects by reference. *)
Definition strictEq (a b : Value) : bool :=
  match a, b with
  | VUndefined, VUndefined => true
  | VNull, VNull => true
  | VBoolean x, VBoolean y => Bool.eqb x y
  | VNumber x, VNumber y => Z.eqb x y
  | VString x, VString y => String.eqb x y
  | _, _ =>
      match refOf a, refOf b with
      | Some x, Some y => Nat.eqb x y
      | _, _ => false
      end
  end.

(** ** Effects: allocation, exceptions, and the caller's mocks

    A computation runs in a [World] and either returns or throws a value.
    [next_ref] is the next free object reference; [mock_calls] is the
    call record of the one [jest.fn] mock the tests hand to the library
    (one argument list per call, as [mock.calls] is). *)
Record World : Type := mkWorld {
  next_ref : nat;
  mock_calls : list (list Value)
}.

Inductive Completion (A : Type) : Type :=
| Return (a : A)
| Throw (thrown : Value).
Arguments Return {A} a.
Arguments Throw {A} thrown.

Definition M (A : Type) : Type := World -> Completion A * World.

Definition ret {A} (a : A) : M A := fun w => (Return a, w).

Definition throw {A} (thrown : Value) : M A := fun w => (Throw thrown, w).

Definition bind {A B} (m : M A) (k : A -> M B) : M B :=
  fun w =>
    match m w with
    | (Return a, w') => k a w'
    | (Throw thrown, w') => (Throw thrown, w')
    end.

Notation "x <- m ;; k" := (bind m (fun x => k))
  (at level 61, m at next level, right associativity).

(** [new C(...)]: the reference of the object being created. *)
Definition new_ref : M nat :=
  fun w => (Return (next_ref w),
            {| next_ref := S (next_ref w); mock_calls := mock_calls w |}).

(** ** [UnwrapError]

    [class UnwrapError extends Error]: the constructor passes [message]
    to [Error] and sets [name] to ["UnwrapError"]. *)
Definition UnwrapError (message : string) : M Value :=
  ref <- new_ref ;;
  ret (VError ref "UnwrapError" message).

(** A method call on a value that has no such method: the engine throws a
    [TypeError].  The engine's message text is not modelled. *)
Definition TypeError {A} : M A :=
  ref <- new_ref ;;
  throw (VError ref "TypeError" "not a function").

(** The receiver of a method of [ResultImpl], as in
    [res.match({ok, err})] and [result.isOk()]. *)
Definition asResult (v : Value) : M Result :=
  match v with
  | VResult r => ret r
  | _ => TypeError
  end.

(** The receiver of a method of [OptionImpl], as in
    [opt.match({some, none})] and [option.isSome()]. *)
Definition asOption (v : Value) : M Option :=
  match v with
  | VOption o => ret o
  | _ => TypeError
  end.

(** ** [OptionImpl] and [ResultImpl]: fields and constructors *)

Definition OptionImpl_isNone_ (this : Option) : bool :=
  let 'mkOptionImpl _ isNone_ _ := this in isNone_.
Definition OptionImpl_value (this : Option) : Value :=
  let 'mkOptionImpl _ _ value := this in value.

Definition ResultImpl_isErr_ (this : Result) : bool :=
  let 'mkResultImpl _ isErr_ _ := this in isErr_.
Definition ResultImpl_value (this : Result) : Value :=
  let 'mkResultImpl _ _ value := this in value.

(** [static some<T>(value: T)]: [new OptionImpl(false, value)] *)
Definition OptionImpl_some (value : Value) : M Option :=
  ref <- new_ref ;;
  ret (mkOptionImpl ref false value).

(** [static none<T>()]: [new OptionImpl<T>(true, undefined)] *)
Definition OptionImpl_none : M Option :=
  ref <- new_ref ;;
  ret (mkOptionImpl ref true VUndefined).

(** [static ok<T, E>(value: T)]: [new ResultImpl<T, E>(false, value)] *)
Definition ResultImpl_ok (value : Value) : M Result :=
  ref <- new_ref ;;
  ret (mkResultImpl ref false value).

(** [static err<T, E>(error: E)]: [new ResultImpl<T, E>(true, error)] *)
Definition ResultImpl_err (error : Value) : M Result :=
  ref <- new_ref ;;
  ret (mkResultImpl ref true error).

(** ** [OptionImpl] methods *)

Definition OptionImpl_isNone (this : Option) : bool :=
  OptionImpl_isNone_ this.

Definition OptionImpl_isSome (this : Option) : bool :=
  negb (OptionImpl_isNone this).

(** [match<N, S>(matcher: { none: () => N; some: (value: T) => S })] *)
Definition OptionImpl_match {A} (this : Option)
    (none : M A) (some : Value -> M A) : M A :=
  if OptionImpl_isNone this then none
  else some (OptionImpl_value this).

(** [expect(message: string | Error)]: the test
    ["string" === typeof message] is the [VString] case. *)
Definition OptionImpl_expect (this : Option) (message : Value) : M Value :=
  OptionImpl_match this
    (error <- match message with
              | VString s => UnwrapError s
              | _ => ret message
              end ;;
     throw error)
    (fun value => ret value).

Definition OptionImpl_unwrap (this : Option) : M Value :=
  OptionImpl_expect this (VString "Tried to call unwrap() on option.none()").

(** [unwrapOrElse<D>(defaultValueThunk: () => D)] *)
Definition OptionImpl_unwrapOrElse (this : Option)
    (defaultValueThunk : list Value -> M Value) : M Value :=
  OptionImpl_match this
    (defaultValueThunk [])
    (fun value => ret value).

(** ** [ResultImpl] methods *)

Definition ResultImpl_isOk (this : Result) : bool :=
  negb (ResultImpl_isErr_ this).

Definition ResultImpl_isErr (this : Result) : bool :=
  ResultImpl_isErr_ this.

(** [match<U, V>(matcher: { ok: (value: T) => U; err: (error: E) => V })] *)
Definition ResultImpl_match {A} (this : Result)
    (ok : Value -> M A) (err : Value -> M A) : M A :=
  if ResultImpl_isErr_ this then err (ResultImpl_value this)
  else ok (ResultImpl_value this).

(** [safeUnwrap(this: Result<any, never>)]: [(this as any).value] *)
Definition ResultImpl_safeUnwrap (this : Result) : M Value :=
  ret (ResultImpl_value this).

(** Modelled from the spec: [safeUnwrapErr] is declared by the [Result]
    interface ([safeUnwrapErr(this: Result<never, any>): E], "same as
    [unwrapErr()] except this method will never throw, since [this]
    cannot be [ok]") and [ResultImpl.ts] has no body for it.  The spec
    makes it the accessor of the failure payload that cannot fail, the
    mirror image of [safeUnwrap]: it reads the payload field. *)
Definition ResultImpl_safeUnwrapErr (this : Result) : M Value :=
  ret (ResultImpl_value this).

Definition ResultImpl_expect (this : Result) (message : Value) : M Value :=
  ResultImpl_match this
    (fun value => ret value)
    (fun _ =>
       error <- match message with
                | VString s => UnwrapError s
                | _ => ret message
                end ;;
       throw error).

Definition ResultImpl_expectErr (this : Result) (message : Value) : M Value :=
  ResultImpl_match this
    (fun _ =>
       error <- match message with
                | VString s => UnwrapError s
                | _ => ret message
                end ;;
       throw error)
    (fun value => ret value).

Definition ResultImpl_unwrap (this : Result) : M Value :=
  ResultImpl_expect this (VString "Tried to call unwrap() on result.err()").

Definition ResultImpl_unwrapErr (this : Result) : M Value :=
  ResultImpl_expectErr this
    (VString "Tried to call unwrapErr() on result.ok()").

(** [unwrapOrElse<D>(defaultValueThunk: (error: E) => D)]: the [err]
    branch calls [defaultValueThunk(this.value as E)]. *)
Definition ResultImpl_unwrapOrElse (this : Result)
    (defaultValueThunk : list Value -> M Value) : M Value :=
  ResultImpl_match this
    (fun value => ret value)
    (fun _ => defaultValueThunk [ResultImpl_value this]).

(** [transpose<U>(this: Result<Option<U>, E>): Option<Result<U, E>>] *)
Definition ResultImpl_transpose (this : Result) : M Option :=
  ResultImpl_match this
    (fun opt =>
       opt <- asOption opt ;;
       OptionImpl_match opt
         (OptionImpl_none)
         (fun t => inner <- ResultImpl_ok t ;; OptionImpl_some (VResult inner)))
    (fun e => inner <- ResultImpl_err e ;; OptionImpl_some (VResult inner)).

(** [reverse(): Result<E, T>] *)
Definition ResultImpl_reverse (this : Result) : M Result :=
  ResultImpl_match this
    (fun t => ResultImpl_err t)
    (fun e => ResultImpl_ok e).

(** [transpose<U, E>(this: Option<Result<U, E>>): Result<Option<U>, E>] *)
Definition OptionImpl_transpose (this : Option) : M Result :=
  OptionImpl_match this
    (inner <- OptionImpl_none ;; ResultImpl_ok (VOption inner))
    (fun res =>
       res <- asResult res ;;
       ResultImpl_match res
         (fun t => inner <- OptionImpl_some t ;; ResultImpl_ok (VOption inner))
         (fun e => ResultImpl_err e)).

(** ** The factory namespaces [option] and [result] of [index.ts] *)

Definition option_some (value : Value) : M Option := OptionImpl_some value.

Definition option_none : M Option := OptionImpl_none.

Definition result_ok (value : Value) : M Result := ResultImpl_ok value.

Definition result_err (error : Value) : M Result := ResultImpl_err error.

(** [fromVoidable<T>(voidable: T | undefined | null)] *)
Definition option_fromVoidable (voidable : Value) : M Option :=
  if strictEq voidable VUndefined || strictEq voidable VNull
  then OptionImpl_none
  else OptionImpl_some voidable.

(** The [for] loop of [optionDotAll].  The array is not changed while the
    loop runs, so [i < options.length] holds exactly while iterations
    remain: [remaining] is [options.length - i].  [values_ref] is the
    array that [let values = []] created and [values] its items so far.
    The array is a JavaScript array: [options[i]] is [undefined] beyond
    its end, and an element that is not an [Option] has no [isSome]. *)
Fixpoint optionDotAll_for (options : list Value) (remaining i : nat)
    (values_ref : nat) (values : list Value) : M Option :=
  match remaining with
  | O => OptionImpl_some (VArray values_ref values)
  | S remaining' =>
      option <- asOption (nth i options VUndefined) ;;
      if OptionImpl_isSome option
      then optionDotAll_for options remaining' (S i) values_ref
             (values ++ [OptionImpl_value option])
      else OptionImpl_none
  end.

(** [optionDotAll<T>(options: Option<T>[]): Option<T[]>] *)
Definition optionDotAll (options : list Value) : M Option :=
  values_ref <- new_ref ;;
  optionDotAll_for options (List.length options) 0 values_ref [].

(** The [for] loop of [resultDotAll], as above. *)
Fixpoint resultDotAll_for (results : list Value) (remaining i : nat)
    (values_ref : nat) (values : list Value) : M Result :=
  match remaining with
  | O => ResultImpl_ok (VArray values_ref values)
  | S remaining' =>
      result <- asResult (nth i results VUndefined) ;;
      if ResultImpl_isOk result
      then
        unwrapped <- ResultImpl_safeUnwrap result ;;
        resultDotAll_for results remaining' (S i) values_ref
          (values ++ [unwrapped])
      else ret result
  end.

(** [resultDotAll<T, E>(results: Result<T, E>[]): Result<T[], E>] *)
Definition resultDotAll (results : list Value) : M Result :=
  values_ref <- new_ref ;;
  resultDotAll_for results (List.length results) 0 values_ref [].

(** ** What the tests observe

    [jest.fn(implementation)]: a function that appends the arguments of
    each call to [mock.calls] and then runs [implementation].  The
    implementation may allocate, return or throw; the call record is the
    mock's own. *)
Definition Implementation : Type :=
  list Value -> nat -> Completion Value * nat.

Definition jest_fn (implementation : Implementation)
    (args : list Value) : M Value :=
  fun w =>
    let '(c, n) := implementation args (next_ref w) in
    (c, {| next_ref := n; mock_calls := mock_calls w ++ [args] |}).

(** Structural equality, as [toEqual] compares: the same shape and the
    same contents at every depth, whatever the references. *)
Fixpoint structEq (a b : Value) {struct a} : bool :=
  match a, b with
  | VUndefined, VUndefined => true
  | VNull, VNull => true
  | VBoolean x, VBoolean y => Bool.eqb x y
  | VNumber x, VNumber y => Z.eqb x y
  | VString x, VString y => String.eqb x y
  | VError _ n1 m1, VError _ n2 m2 => String.eqb n1 n2 && String.eqb m1 m2
  | VArray _ xs, VArray _ ys =>
      (fix items (xs ys : list Value) {struct xs} : bool :=
         match xs, ys with
         | [], [] => true
         | x :: xs', y :: ys' => structEq x y && items xs' ys'
         | _, _ => false
         end) xs ys
  | VOption o1, VOption o2 => structEqOption o1 o2
  | VResult r1, VResult r2 => structEqResult r1 r2
  | _, _ => false
  end
with structEqOption (a b : Option) {struct a} : bool :=
  match a, b with
  | mkOptionImpl _ n1 v1, mkOptionImpl _ n2 v2 =>
      Bool.eqb n1 n2 && structEq v1 v2
  end
with structEqResult (a b : Result) {struct a} : bool :=
  match a, b with
  | mkResultImpl _ e1 v1, mkResultImpl _ e2 v2 =>
      Bool.eqb e1 e2 && structEq v1 v2
  end.

(** Running a computation: what it completed with, and the world after. *)
Definition completion {A} (m : M A) (w : World) : Completion A := fst (m w).
Definition world_after {A} (m : M A) (w : World) : World := snd (m w).

(** The message of a thrown error object. *)
Definition thrown_message {A} (c : Completion A) : option string :=
  match c with
  | Throw (VError _ _ message) => Some message
  | _ => None
  end.

(** The world after [n] allocations. *)
Definition allocated (n : nat) (w : World) : World :=
  {| next_ref := n + next_ref w; mock_calls := mock_calls w |}.

(** The constructor of [OptionImpl] is private: an instance comes from
    [some] or from [none], and [none] stores [undefined]. *)
Definition OptionImpl_wf (o : Option) : bool :=
  if OptionImpl_isNone_ o then
    match OptionImpl_value o with VUndefined => true | _ => false end
  else true.

(** The receivers that the signatures of the two [transpose] methods
    admit: [this: Option<Result<U, E>>] and [this: Result<Option<U>, E>]. *)
Definition isOptionOfResult (o : Option) : bool :=
  OptionImpl_wf o &&
  (OptionImpl_isNone_ o ||
   match OptionImpl_value o with VResult _ => true | _ => false end).

Definition isResultOfOption (r : Result) : bool :=
  ResultImpl_isErr_ r ||
  match ResultImpl_value r with VOption o => OptionImpl_wf o | _ => false end.

(** The host language's own markers of a missing value. *)
Definition isMissingMarker (v : Value) : bool :=
  match v with
  | VUndefined | VNull => true
  | _ => false
  end.

(** What [expect(message)] throws on the variant it does not accept:
    for a string, a new [UnwrapError] with that message; for anything
    else, [message] itself, with nothing allocated. *)
Definition expect_failure (message : Value) (w : World)
    : Completion Value * World :=
  match message with
  | VString s => (Throw (VError (next_ref w) "UnwrapError" s), allocated 1 w)
  | _ => (Throw message, w)
  end.

(** The number of calls that running [m] adds to the mock's record. *)
Definition calls_during {A} (m : M A) (w : World) : nat :=
  List.length (mock_calls (world_after m w)) - List.length (mock_calls w).

(** The two loops, told by the elements still to scan instead of by the
    index: what the loop does from an element on. *)
Fixpoint optionDotAll_scan (rest : list Value) (values_ref : nat)
    (values : list Value) : M Option :=
  match rest with
  | [] => OptionImpl_some (VArray values_ref values)
  | element :: rest' =>
      option <- asOption element ;;
      if OptionImpl_isSome option
      then optionDotAll_scan rest' values_ref
             (values ++ [OptionImpl_value option])
      else OptionImpl_none
  end.

Fixpoint resultDotAll_scan (rest : list Value) (values_ref : nat)
    (values : list Value) : M Result :=
  match rest with
  | [] => ResultImpl_ok (VArray values_ref values)
  | element :: rest' =>
      result <- asResult element ;;
      if ResultImpl_isOk result
      then resultDotAll_scan rest' values_ref
             (values ++ [ResultImpl_value result])
      else ret result
  end.

(** ** The other methods of [OptionImpl]

    A parameter that the method only hands on ([other], [defaultValue])
    is any value, and so is what a callback returns: the signatures are
    not checked at run time.  A callback is called with the list of its
    arguments. *)

(** [ToBoolean], which [c ? a : b] applies to [c]. *)
Definition ToBoolean (v : Value) : bool :=
  match v with
  | VUndefined | VNull => false
  | VBoolean b => b
  | VNumber n => negb (Z.eqb n 0)
  | VString s => negb (String.eqb s "")
  | VError _ _ _ | VArray _ _ | VOption _ | VResult _ => true
  end.

(** The first parameter of an arrow function [value => ...] called with
    [args]. *)
Definition first_arg (args : list Value) : Value := nth 0 args VUndefined.

(** [map<R>(mapper: (value: T) => R): Option<R>] *)
Definition OptionImpl_map (this : Option)
    (mapper : list Value -> M Value) : M Option :=
  OptionImpl_match this
    (ret this)
    (fun value => mapped <- mapper [value] ;; OptionImpl_some mapped).

(** [ifSome(executor)]: [this.map(executor);] and no [return]. *)
Definition OptionImpl_ifSome (this : Option)
    (executor : list Value -> M Value) : M Value :=
  _ <- OptionImpl_map this executor ;;
  ret VUndefined.

(** [ifNone(executor)]: [if (this.isNone()) { executor(); }] *)
Definition OptionImpl_ifNone (this : Option)
    (executor : list Value -> M Value) : M Value :=
  if OptionImpl_isNone this
  then _ <- executor [] ;; ret VUndefined
  else ret VUndefined.

(** [unwrapOr<D>(defaultValue: D): T | D] *)
Definition OptionImpl_unwrapOr (this : Option) (defaultValue : Value)
    : M Value :=
  OptionImpl_match this
    (ret defaultValue)
    (fun value => ret value).

(** [and<U>(other: Option<U>): Option<U>] *)
Definition OptionImpl_and (this : Option) (other : Value) : M Value :=
  OptionImpl_match this
    (absent <- OptionImpl_none ;; ret (VOption absent))
    (fun _ => ret other).

(** [andThen<U>(flatMapper: (value: T) => Option<U>): Option<U>] *)
Definition OptionImpl_andThen (this : Option)
    (flatMapper : list Value -> M Value) : M Value :=
  OptionImpl_match this
    (absent <- OptionImpl_none ;; ret (VOption absent))
    (fun value => flatMapper [value]).

(** [or<U>(other: Option<U>): Option<T | U>] *)
Definition OptionImpl_or (this : Option) (other : Value) : M Value :=
  OptionImpl_match this
    (ret other)
    (fun _ => ret (VOption this)).

(** [orElse<U>(otherThunk: () => Option<U>): Option<T | U>] *)
Definition OptionImpl_orElse (this : Option)
    (otherThunk : list Value -> M Value) : M Value :=
  OptionImpl_match this
    (otherThunk [])
    (fun _ => ret (VOption this)).

(** [filter(predicate)]:
    [this.andThen(value => (predicate(value) ? this : OptionImpl.none()))] *)
Definition OptionImpl_filter (this : Option)
    (predicate : list Value -> M Value) : M Value :=
  OptionImpl_andThen this
    (fun args =>
       keep <- predicate [first_arg args] ;;
       if ToBoolean keep then ret (VOption this)
       else absent <- OptionImpl_none ;; ret (VOption absent)).

(** [flatten<U>(this: Option<Option<U>>)]:
    [this.andThen(innerOption => innerOption)] *)
Definition OptionImpl_flatten (this : Option) : M Value :=
  OptionImpl_andThen this (fun args => ret (first_arg args)).

(** [array(): T[]] *)
Definition OptionImpl_array (this : Option) : M Value :=
  OptionImpl_match this
    (ref <- new_ref ;; ret (VArray ref []))
    (fun value => ref <- new_ref ;; ret (VArray ref [value])).

(** [xor<U>(other: Option<U>): Option<T | U>].  On a [some] the method
    calls [other.match]: [other] is taken to be the [Option] that the
    signature asks for. *)
Definition OptionImpl_xor (this other : Option) : M Value :=
  OptionImpl_match this
    (ret (VOption other))
    (fun _ =>
       OptionImpl_match other
         (ret (VOption this))
         (fun _ => absent <- OptionImpl_none ;; ret (VOption absent))).

(** [equalsSome(other: T): boolean] *)
Definition OptionImpl_equalsSome (this : Option) (other : Value) : M Value :=
  OptionImpl_match this
    (ret (VBoolean false))
    (fun v => ret (VBoolean (strictEq v other))).

(** [someSatisfies(predicate: (val: T) => boolean): boolean] *)
Definition OptionImpl_someSatisfies (this : Option)
    (predicate : list Value -> M Value) : M Value :=
  OptionImpl_match this
    (ret (VBoolean false))
    (fun value => predicate [value]).

(** ** The other methods of [ResultImpl]

    The instance methods [ok()] and [err()] share their names with the
    static constructors; they are [ResultImpl.prototype.ok] and
    [ResultImpl.prototype.err]. *)

(** [ok(): Option<T>] *)
Definition ResultImpl_prototype_ok (this : Result) : M Option :=
  ResultImpl_match this
    (fun t => OptionImpl_some t)
    (fun _ => OptionImpl_none).

(** [err(): Option<E>] *)
Definition ResultImpl_prototype_err (this : Result) : M Option :=
  ResultImpl_match this
    (fun _ => OptionImpl_none)
    (fun e => OptionImpl_some e).

(** [map<T2>(mapper: (value: T) => T2): Result<T2, E>] *)
Definition ResultImpl_map (this : Result)
    (mapper : list Value -> M Value) : M Result :=
  ResultImpl_match this
    (fun t => mapped <- mapper [t] ;; ResultImpl_ok mapped)
    (fun _ => ret this).

(** [mapErr<E2>(mapper: (error: E) => E2): Result<T, E2>] *)
Definition ResultImpl_mapErr (this : Result)
    (mapper : list Value -> M Value) : M Result :=
  ResultImpl_match this
    (fun _ => ret this)
    (fun e => mapped <- mapper [e] ;; ResultImpl_err mapped).

(** [ifOk(executor)]: [this.map(executor);] *)
Definition ResultImpl_ifOk (this : Result)
    (executor : list Value -> M Value) : M Value :=
  _ <- ResultImpl_map this executor ;;
  ret VUndefined.

(** [ifErr(executor)]: [this.mapErr(executor);] *)
Definition ResultImpl_ifErr (this : Result)
    (executor : list Value -> M Value) : M Value :=
  _ <- ResultImpl_mapErr this executor ;;
  ret VUndefined.

(** [unwrapOrThrowErr(this: Result<any, Error>): T] *)
Definition ResultImpl_unwrapOrThrowErr (this : Result) : M Value :=
  ResultImpl_match this
    (fun t => ret t)
    (fun e => throw e).

(** [unwrapErrOrThrowOk(this: Result<Error, any>): E] *)
Definition ResultImpl_unwrapErrOrThrowOk (this : Result) : M Value :=
  ResultImpl_match this
    (fun t => throw t)
    (fun e => ret e).

(** [unwrapOr<D>(defaultValue: D): T | D] *)
Definition ResultImpl_unwrapOr (this : Result) (defaultValue : Value)
    : M Value :=
  ResultImpl_match this
    (fun value => ret value)
    (fun _ => ret defaultValue).

(** [and<T2, E2>(other: Result<T2, E2>): Result<T2, E | E2>] *)
Definition ResultImpl_and (this : Result) (other : Value) : M Value :=
  ResultImpl_match this
    (fun _ => ret other)
    (fun _ => ret (VResult this)).

(** [andThen<T2, E2>(flatMapper: (value: T) => Result<T2, E2>)] *)
Definition ResultImpl_andThen (this : Result)
    (flatMapper : list Value -> M Value) : M Value :=
  ResultImpl_match this
    (fun t => flatMapper [t])
    (fun _ => ret (VResult this)).

(** [or<T2, E2>(other: Result<T2, E2>): Result<T | T2, E2>] *)
Definition ResultImpl_or (this : Result) (other : Value) : M Value :=
  ResultImpl_match this
    (fun _ => ret (VResult this))
    (fun _ => ret other).

(** [orElse<T2, E2>(otherThunk: (error: E) => Result<T2, E2>)] *)
Definition ResultImpl_orElse (this : Result)
    (otherThunk : list Value -> M Value) : M Value :=
  ResultImpl_match this
    (fun _ => ret (VResult this))
    (fun e => otherThunk [e]).

(** [array(): [] | [T]] *)
Definition ResultImpl_array (this : Result) : M Value :=
  ResultImpl_match this
    (fun t => ref <- new_ref ;; ret (VArray ref [t]))
    (fun _ => ref <- new_ref ;; ret (VArray ref [])).

(** [okSatisfies(predicate)]:
    [this.ok().match({ some: predicate, none: () => false })] *)
Definition ResultImpl_okSatisfies (this : Result)
    (predicate : list Value -> M Value) : M Value :=
  projected <- ResultImpl_prototype_ok this ;;
  OptionImpl_match projected
    (ret (VBoolean false))
    (fun value => predicate [value]).

(** [errSatisfies(predicate)]:
    [this.err().match({ some: predicate, none: () => false })] *)
Definition ResultImpl_errSatisfies (this : Result)
    (predicate : list Value -> M Value) : M Value :=
  projected <- ResultImpl_prototype_err this ;;
  OptionImpl_match projected
    (ret (VBoolean false))
    (fun value => predicate [value]).

(** ** Vocabulary of the further properties *)

(** The callback [x => f(x)] of a function [f] that has no effect. *)
Definition pure_fn (f : Value -> Value) : list Value -> M Value :=
  fun args => ret (f (first_arg args)).

(** A computation that returns, whatever the world it starts in. *)
Definition never_throws {A} (m : M A) : Prop :=
  forall w, exists a w', m w = (Return a, w').

(** Two completions of the same kind whose values are structurally
    equal. *)
Definition structEqCompletion (a b : Completion Value) : bool :=
  match a, b with
  | Return x, Return y => structEq x y
  | Throw x, Throw y => structEq x y
  | _, _ => false
  end.

(** Every [Option] that a computation returns keeps the invariant of the
    class ([OptionImpl_wf]). *)
Definition returns_wf (m : M Option) : Prop :=
  forall w o w', m w = (Return o, w') -> OptionImpl_wf o = true.

Definition returns_wf_value (m : M Value) : Prop :=
  forall w o w', m w = (Return (VOption o), w') -> OptionImpl_wf o = true.

(** [receiver.andThen(flatMapper)] on any value: both classes have the
    method, and nothing else has. *)
Definition Value_andThen (receiver : Value)
    (flatMapper : list Value -> M Value) : M Value :=
  match receiver with
  | VOption this => OptionImpl_andThen this flatMapper
  | VResult this => ResultImpl_andThen this flatMapper
  | _ => TypeError
  end.

(** [values.map(v => option.some(v))] and [values.map(v => result.ok(v))],
    the arrays that callers hand to [option.all] and [result.all]. *)
Fixpoint map_option_some (values : list Value) : M (list Value) :=
  match values with
  | [] => ret []
  | v :: rest =>
      o <- option_some v ;;
      os <- map_option_some rest ;;
      ret (VOption o :: os)
  end.

Fixpoint map_result_ok (values : list Value) : M (list Value) :=
  match values with
  | [] => ret []
  | v :: rest =>
      r <- result_ok v ;;
      rs <- map_result_ok rest ;;
      ret (VResult r :: rs)
  end.

(** Unfolding of the other methods. *)
Ltac unfold_others :=
  unfold OptionImpl_ifSome, OptionImpl_ifNone, OptionImpl_filter,
    OptionImpl_flatten, OptionImpl_map, OptionImpl_unwrapOr,
    OptionImpl_and, OptionImpl_andThen, OptionImpl_or, OptionImpl_orElse,
    OptionImpl_array, OptionImpl_xor, OptionImpl_equalsSome,
    OptionImpl_someSatisfies,
    ResultImpl_okSatisfies, ResultImpl_errSatisfies,
    ResultImpl_ifOk, ResultImpl_ifErr,
    ResultImpl_prototype_ok, ResultImpl_prototype_err,
    ResultImpl_map, ResultImpl_mapErr,
    ResultImpl_unwrapOrThrowErr, ResultImpl_unwrapErrOrThrowOk,
    ResultImpl_unwrapOr, ResultImpl_and, ResultImpl_andThen, ResultImpl_or,
    ResultImpl_orElse, ResultImpl_array,
    Value_andThen, pure_fn, first_arg, calls_during in *.

(** Unfolding of the methods down to the world they run in. *)
Ltac unfold_methods :=
  unfold option_some, option_none, result_ok, result_err,
    option_fromVoidable,
    OptionImpl_unwrap, OptionImpl_expect, OptionImpl_unwrapOrElse,
    OptionImpl_transpose,
    ResultImpl_unwrap, ResultImpl_unwrapErr, ResultImpl_expect,
    ResultImpl_expectErr, ResultImpl_unwrapOrElse, ResultImpl_transpose,
    ResultImpl_reverse, ResultImpl_safeUnwrap, ResultImpl_safeUnwrapErr,
    OptionImpl_match, ResultImpl_match,
    OptionImpl_isSome, OptionImpl_isNone, ResultImpl_isOk, ResultImpl_isErr,
    OptionImpl_some, OptionImpl_none, ResultImpl_ok, ResultImpl_err,
    asOption, asResult, UnwrapError, TypeError, jest_fn,
    completion, world_after, allocated,
    bind, ret, throw, new_ref in *.

Ltac run := unfold_methods; simpl in *.

Ltac run_all := unfold_others; unfold_methods; simpl in *.

(** ** Basic facts *)

Lemma typeof_string (v : Value) :
  typeof v = "string" <-> exists s, v = VString s.
Proof.
  split.
  - destruct v; simpl; try discriminate. intros _. now exists s.
  - intros [s ->]. reflexivity.
Qed.

Fixpoint structEq_refl (v : Value) : structEq v v = true
with structEqOption_refl (o : Option) : structEqOption o o = true
with structEqResult_refl (r : Result) : structEqResult r r = true.
Proof.
  - destruct v; simpl.
    + reflexivity.
    + reflexivity.
    + apply Bool.eqb_reflx.
    + apply Z.eqb_refl.
    + apply String.eqb_refl.
    + now rewrite !String.eqb_refl.
    + revert items.
      refine (fix each (items : list Value) := _).
      destruct items as [|x items']; [reflexivity|].
      now rewrite structEq_refl, each.
    + apply structEqOption_refl.
    + apply structEqResult_refl.
  - destruct o as [ref isNone_ value]. simpl.
    now rewrite Bool.eqb_reflx, structEq_refl.
  - destruct r as [ref isErr_ value]. simpl.
    now rewrite Bool.eqb_reflx, structEq_refl.
Qed.

(** ** The variant tag alone decides presence *)

(** C10.  For every value [v], also [undefined] and [null], [some(v)] is
    a fresh object with [isSome() = true] and [isNone() = false] whose
    [unwrap()] returns [v] and throws nothing; [none()] answers the two
    predicates the other way round, and is not structurally equal to
    [some(v)], whatever [v] is. *)
Theorem some_is_present_whatever_the_payload :
  forall (v : Value) (w : World),
    exists o n : Option,
      option_some v w = (Return o, allocated 1 w) /\
      OptionImpl_isSome o = true /\
      OptionImpl_isNone o = false /\
      OptionImpl_unwrap o (allocated 1 w) = (Return v, allocated 1 w) /\
      option_none w = (Return n, allocated 1 w) /\
      OptionImpl_isSome n = false /\
      OptionImpl_isNone n = true /\
      structEq (VOption o) (VOption n) = false.
Proof.
  intros v w.
  exists (mkOptionImpl (next_ref w) false v),
         (mkOptionImpl (next_ref w) true VUndefined).
  run. repeat split; reflexivity.
Qed.

(** ** [unwrap] *)

(** C2, as the code has it.  [unwrap()] on a [none] throws a new
    [UnwrapError] (name ["UnwrapError"]) whose message is
    ["Tried to call unwrap() on option.none()"]; [unwrap()] on a [some]
    returns the wrapped value, throws nothing and allocates nothing. *)
Theorem unwrap_none_throws_UnwrapError :
  forall (absent present : Option) (w : World),
    OptionImpl_isNone absent = true ->
    OptionImpl_isSome present = true ->
    OptionImpl_unwrap absent w =
      (Throw (VError (next_ref w) "UnwrapError"
                "Tried to call unwrap() on option.none()"),
       allocated 1 w) /\
    OptionImpl_unwrap present w = (Return (OptionImpl_value present), w).
Proof.
  intros [r1 n1 v1] [r2 n2 v2] w Habsent Hpresent.
  run. subst n1. destruct n2; [discriminate|].
  split; reflexivity.
Qed.

Lemma unwrap_none_throws_UnwrapError_witness :
  OptionImpl_unwrap (mkOptionImpl 0 true VUndefined) (mkWorld 1 []) =
    (Throw (VError 1 "UnwrapError" "Tried to call unwrap() on option.none()"),
     mkWorld 2 []) /\
  OptionImpl_unwrap (mkOptionImpl 0 false (VNumber 42)) (mkWorld 1 []) =
    (Return (VNumber 42), mkWorld 1 []).
Proof.
  apply (unwrap_none_throws_UnwrapError
           (mkOptionImpl 0 true VUndefined)
           (mkOptionImpl 0 false (VNumber 42))
           (mkWorld 1 [])); reflexivity.
Defined.

(** C2, as the specification words it: the message of the error that
    [option.none().unwrap()] throws is not
    ["Tried to call unwrap() on absent"]. *)
Lemma unwrap_none_message_is_not_the_specified_one :
  thrown_message
    (completion (o <- option_none ;; OptionImpl_unwrap o) (mkWorld 0 []))
  <> Some "Tried to call unwrap() on absent".
Proof. vm_compute. discriminate. Qed.

(** ** The accessors that cannot fail *)

(** C3.  On a [Result] that is [ok] (all that [Result<any, never>]
    admits) [safeUnwrap()] returns the wrapped value, which is what
    [unwrap()] returns there, and throws nothing; on a [Result] that is
    [err] (all that [Result<never, any>] admits) [safeUnwrapErr()]
    returns the wrapped error, which is what [unwrapErr()] returns there,
    and throws nothing. *)
Theorem safe_accessors_never_fail :
  forall (success failure : Result) (w : World),
    ResultImpl_isOk success = true ->
    ResultImpl_isErr failure = true ->
    ResultImpl_safeUnwrap success w = (Return (ResultImpl_value success), w) /\
    ResultImpl_safeUnwrap success w = ResultImpl_unwrap success w /\
    ResultImpl_safeUnwrapErr failure w =
      (Return (ResultImpl_value failure), w) /\
    ResultImpl_safeUnwrapErr failure w = ResultImpl_unwrapErr failure w.
Proof.
  intros [r1 e1 v1] [r2 e2 v2] w Hok Herr.
  run. subst e2. destruct e1; [discriminate|].
  repeat split; reflexivity.
Qed.

Lemma safe_accessors_never_fail_witness :
  ResultImpl_safeUnwrap (mkResultImpl 0 false (VString "foo")) (mkWorld 1 []) =
    (Return (VString "foo"), mkWorld 1 []) /\
  ResultImpl_safeUnwrapErr (mkResultImpl 0 true (VString "bar")) (mkWorld 1 []) =
    (Return (VString "bar"), mkWorld 1 []).
Proof.
  destruct (safe_accessors_never_fail
              (mkResultImpl 0 false (VString "foo"))
              (mkResultImpl 0 true (VString "bar"))
              (mkWorld 1 []) eq_refl eq_refl) as (H1 & _ & H2 & _).
  split; [exact H1 | exact H2].
Defined.

(** ** [expect] and [expectErr] *)

(** C6.  [expect] on a [none], [expect] on an [err] and [expectErr] on an
    [ok] throw the same thing.  Given an error object (anything that is
    not a string) they throw that very object: the thrown value is the
    argument, reference included, and no object is created.  Given a
    string they throw a new object, named ["UnwrapError"], whose message
    is the string. *)
Theorem expect_throws_the_given_error :
  forall (absent : Option) (failure success : Result)
         (message : Value) (w : World),
    OptionImpl_isNone absent = true ->
    ResultImpl_isErr failure = true ->
    ResultImpl_isOk success = true ->
    OptionImpl_expect absent message w = expect_failure message w /\
    ResultImpl_expect failure message w = expect_failure message w /\
    ResultImpl_expectErr success message w = expect_failure message w /\
    (typeof message <> "string" ->
       expect_failure message w = (Throw message, w)) /\
    (forall s, message = VString s ->
       expect_failure message w =
         (Throw (VError (next_ref w) "UnwrapError" s), allocated 1 w)).
Proof.
  intros [r1 n1 v1] [r2 e2 v2] [r3 e3 v3] message w Hnone Herr Hok.
  run. subst n1 e2. destruct e3; [discriminate|].
  repeat split.
  - destruct message; reflexivity.
  - destruct message; reflexivity.
  - destruct message; reflexivity.
  - intros Hnot. destruct message; try reflexivity. now elim Hnot.
  - intros s ->. reflexivity.
Qed.

Lemma expect_throws_the_given_error_witness :
  OptionImpl_expect (mkOptionImpl 0 true VUndefined)
    (VError 1 "Error" "Oh noes!") (mkWorld 2 []) =
    (Throw (VError 1 "Error" "Oh noes!"), mkWorld 2 []) /\
  ResultImpl_expectErr (mkResultImpl 4 false VNull)
    (VString "Oh noes!") (mkWorld 5 []) =
    (Throw (VError 5 "UnwrapError" "Oh noes!"), mkWorld 6 []).
Proof.
  split.
  - destruct (expect_throws_the_given_error
                (mkOptionImpl 0 true VUndefined)
                (mkResultImpl 3 true VNull) (mkResultImpl 4 false VNull)
                (VError 1 "Error" "Oh noes!") (mkWorld 2 [])
                eq_refl eq_refl eq_refl) as (H & _ & _ & Hobject & _).
    rewrite H. apply Hobject. simpl. discriminate.
  - destruct (expect_throws_the_given_error
                (mkOptionImpl 0 true VUndefined)
                (mkResultImpl 3 true VNull) (mkResultImpl 4 false VNull)
                (VString "Oh noes!") (mkWorld 5 [])
                eq_refl eq_refl eq_refl) as (_ & _ & H & _ & Hstring).
    rewrite H. apply (Hstring "Oh noes!"). reflexivity.
Defined.

(** ** Laziness of [unwrapOrElse] *)

(** C7.  On a [none], [unwrapOrElse(thunk)] is one call of the thunk,
    with no argument: it does what that call does and completes as it
    completes.  On a [some] it returns the wrapped value and nothing else
    happens.  [Result]'s [unwrapOrElse] is, on an [err], one call of the
    thunk with the wrapped error, and on an [ok] returns the wrapped
    value and nothing else happens.  Counted by a mock around any
    implementation, as the tests count: one call on [none] and on [err],
    recorded with its arguments, and no call on [some] and on [ok]. *)
Theorem unwrapOrElse_is_lazy :
  forall (thunk : list Value -> M Value) (implementation : Implementation)
         (absent present : Option) (failure success : Result) (w : World),
    OptionImpl_isNone absent = true ->
    OptionImpl_isSome present = true ->
    ResultImpl_isErr failure = true ->
    ResultImpl_isOk success = true ->
    (OptionImpl_unwrapOrElse absent thunk w = thunk [] w /\
     calls_during
       (OptionImpl_unwrapOrElse absent (jest_fn implementation)) w = 1 /\
     mock_calls
       (world_after
          (OptionImpl_unwrapOrElse absent (jest_fn implementation)) w) =
       mock_calls w ++ [[]] /\
     completion (OptionImpl_unwrapOrElse absent (jest_fn implementation)) w =
       fst (implementation [] (next_ref w))) /\
    (OptionImpl_unwrapOrElse present thunk w =
       (Return (OptionImpl_value present), w) /\
     calls_during
       (OptionImpl_unwrapOrElse present (jest_fn implementation)) w = 0) /\
    (ResultImpl_unwrapOrElse failure thunk w =
       thunk [ResultImpl_value failure] w /\
     calls_during
       (ResultImpl_unwrapOrElse failure (jest_fn implementation)) w = 1 /\
     mock_calls
       (world_after
          (ResultImpl_unwrapOrElse failure (jest_fn implementation)) w) =
       mock_calls w ++ [[ResultImpl_value failure]] /\
     completion (ResultImpl_unwrapOrElse failure (jest_fn implementation)) w =
       fst (implementation [ResultImpl_value failure] (next_ref w))) /\
    (ResultImpl_unwrapOrElse success thunk w =
       (Return (ResultImpl_value success), w) /\
     calls_during
       (ResultImpl_unwrapOrElse success (jest_fn implementation)) w = 0).
Proof.
  intros thunk implementation [r1 n1 v1] [r2 n2 v2] [r3 e3 v3] [r4 e4 v4] w
    Hnone Hsome Herr Hok.
  unfold calls_during. run. subst n1 e3.
  destruct n2; [discriminate|]. destruct e4; [discriminate|]. simpl.
  repeat split.
  - destruct (implementation [] (next_ref w)) as [c n]. simpl.
    rewrite length_app. simpl. lia.
  - now destruct (implementation [] (next_ref w)).
  - now destruct (implementation [] (next_ref w)).
  - lia.
  - destruct (implementation [v3] (next_ref w)) as [c n]. simpl.
    rewrite length_app. simpl. lia.
  - now destruct (implementation [v3] (next_ref w)).
  - now destruct (implementation [v3] (next_ref w)).
  - lia.
Qed.

Lemma unwrapOrElse_is_lazy_witness :
  calls_during
    (OptionImpl_unwrapOrElse (mkOptionImpl 0 true VUndefined)
       (jest_fn (fun _ n => (Return (VNumber (-19)), n))))
    (mkWorld 1 []) = 1 /\
  calls_during
    (OptionImpl_unwrapOrElse (mkOptionImpl 0 false (VNumber 42))
       (jest_fn (fun _ n => (Return (VNumber (-19)), n))))
    (mkWorld 1 []) = 0.
Proof.
  destruct (unwrapOrElse_is_lazy
              (fun _ => ret VNull)
              (fun _ n => (Return (VNumber (-19)), n))
              (mkOptionImpl 0 true VUndefined)
              (mkOptionImpl 0 false (VNumber 42))
              (mkResultImpl 0 true (VString "bar"))
              (mkResultImpl 0 false (VNumber 42))
              (mkWorld 1 []) eq_refl eq_refl eq_refl eq_refl)
    as ((_ & Honce & _) & (_ & Hnever) & _).
  split; [exact Honce | exact Hnever].
Defined.

(** ** [reverse] *)

(** C8.  [reverse()] returns a new [Result] with the tag flipped and the
    same payload, and reversing that one gives a [Result] structurally
    equal to the first: the tag and the payload it started with. *)
Theorem reverse_is_self_inverse :
  forall (r : Result) (w : World),
    exists once twice : Result,
      ResultImpl_reverse r w = (Return once, allocated 1 w) /\
      ResultImpl_isErr once = negb (ResultImpl_isErr r) /\
      ResultImpl_value once = ResultImpl_value r /\
      (reversed <- ResultImpl_reverse r ;; ResultImpl_reverse reversed) w =
        (Return twice, allocated 2 w) /\
      ResultImpl_isErr twice = ResultImpl_isErr r /\
      ResultImpl_value twice = ResultImpl_value r /\
      structEq (VResult twice) (VResult r) = true.
Proof.
  intros [ref isErr_ value] w.
  exists (mkResultImpl (next_ref w) (negb isErr_) value),
         (mkResultImpl (S (next_ref w)) isErr_ value).
  run. destruct isErr_; simpl; rewrite structEq_refl; repeat split.
Qed.

(** ** [option.fromVoidable] *)

(** C9.  [fromVoidable(t)] returns a new [Option] that is [none] exactly
    when [t] is one of the missing markers, [undefined] or [null], and
    that otherwise is [some] with [t] itself as its payload. *)
Theorem fromVoidable_none_iff_missing :
  forall (voidable : Value) (w : World),
    exists o : Option,
      option_fromVoidable voidable w = (Return o, allocated 1 w) /\
      OptionImpl_isNone o = isMissingMarker voidable /\
      (OptionImpl_isNone o = true <->
         voidable = VUndefined \/ voidable = VNull) /\
      (OptionImpl_isSome o = true <->
         OptionImpl_value o = voidable /\
         voidable <> VUndefined /\ voidable <> VNull).
Proof.
  intros voidable w.
  exists (mkOptionImpl (next_ref w) (isMissingMarker voidable)
            (if isMissingMarker voidable then VUndefined else voidable)).
  run. destruct voidable as [| | | | | | |[]|[]]; simpl;
    (split; [reflexivity|]); (split; [reflexivity|]);
    (split; split); try discriminate; try tauto;
    try (intros [? | ?]; discriminate);
    try (intros _; repeat split; discriminate).
Qed.

(** ** The two [transpose] methods *)

Lemma Option_transpose_then_back (o : Option) (w : World) :
  isOptionOfResult o = true ->
  exists (o' : Option) (w' : World),
    (t <- OptionImpl_transpose o ;; ResultImpl_transpose t) w =
      (Return o', w') /\
    structEq (VOption o') (VOption o) = true.
Proof.
  destruct o as [ref isNone_ value]. unfold isOptionOfResult, OptionImpl_wf.
  simpl. destruct isNone_; simpl.
  - destruct value; try discriminate. intros _.
    do 2 eexists. run. split; reflexivity.
  - destruct value as [| | | | | | | |[ref' isErr_ inner]]; try discriminate.
    intros _. destruct isErr_.
    + do 2 eexists. run. split; [reflexivity|].
      simpl. apply structEq_refl.
    + do 2 eexists. run. split; [reflexivity|].
      simpl. apply structEq_refl.
Qed.

Lemma Result_transpose_then_back (r : Result) (w : World) :
  isResultOfOption r = true ->
  exists (r' : Result) (w' : World),
    (t <- ResultImpl_transpose r ;; OptionImpl_transpose t) w =
      (Return r', w') /\
    structEq (VResult r') (VResult r) = true.
Proof.
  destruct r as [ref isErr_ value]. unfold isResultOfOption, OptionImpl_wf.
  simpl. destruct isErr_; simpl.
  - intros _. do 2 eexists. run. split; [reflexivity|].
    simpl. apply structEq_refl.
  - destruct value as [| | | | | | |[ref' isNone_ inner]|]; try discriminate.
    simpl. destruct isNone_.
    + destruct inner; try discriminate. intros _.
      do 2 eexists. run. split; reflexivity.
    + intros _. do 2 eexists. run. split; [reflexivity|].
      simpl. apply structEq_refl.
Qed.

(** C1.  The two [transpose] methods undo each other.  For every
    [Option] of a [Result] (a [none], a [some] of an [ok], a [some] of an
    [err]), [Option]'s [transpose] followed by [Result]'s returns, without
    throwing, an [Option] structurally equal to the first; for every
    [Result] of an [Option] (an [ok] of a [none], an [ok] of a [some], an
    [err]), [Result]'s [transpose] followed by [Option]'s returns, without
    throwing, a [Result] structurally equal to the first. *)
Theorem transposes_are_mutual_inverses :
  forall (o : Option) (r : Result) (w : World),
    isOptionOfResult o = true ->
    isResultOfOption r = true ->
    (exists o' : Option,
       completion (t <- OptionImpl_transpose o ;; ResultImpl_transpose t) w =
         Return o' /\
       structEq (VOption o') (VOption o) = true) /\
    (exists r' : Result,
       completion (t <- ResultImpl_transpose r ;; OptionImpl_transpose t) w =
         Return r' /\
       structEq (VResult r') (VResult r) = true).
Proof.
  intros o r w Ho Hr. split.
  - destruct (Option_transpose_then_back o w Ho) as (o' & w' & Hrun & Heq).
    exists o'. unfold completion. now rewrite Hrun.
  - destruct (Result_transpose_then_back r w Hr) as (r' & w' & Hrun & Heq).
    exists r'. unfold completion. now rewrite Hrun.
Qed.

Lemma transposes_are_mutual_inverses_witness :
  (exists o' : Option,
     completion
       (t <- OptionImpl_transpose
               (mkOptionImpl 1 false (VResult (mkResultImpl 0 true (VNumber 3)))) ;;
        ResultImpl_transpose t) (mkWorld 2 []) = Return o' /\
     structEq (VOption o')
       (VOption (mkOptionImpl 1 false
                   (VResult (mkResultImpl 0 true (VNumber 3))))) = true) /\
  (exists r' : Result,
     completion
       (t <- ResultImpl_transpose
               (mkResultImpl 1 false
                  (VOption (mkOptionImpl 0 false (VNumber 3)))) ;;
        OptionImpl_transpose t) (mkWorld 2 []) = Return r' /\
     structEq (VResult r')
       (VResult (mkResultImpl 1 false
                   (VOption (mkOptionImpl 0 false (VNumber 3))))) = true).
Proof.
  apply (transposes_are_mutual_inverses
           (mkOptionImpl 1 false (VResult (mkResultImpl 0 true (VNumber 3))))
           (mkResultImpl 1 false (VOption (mkOptionImpl 0 false (VNumber 3))))
           (mkWorld 2 [])); reflexivity.
Defined.

(** ** [option.all] and [result.all] *)

Section Scan.

Variable values_ref : nat.

(** The loop entered at index [length pre] does what the scan of the
    elements from there on does. *)
Lemma optionDotAll_for_is_scan (rest pre values : list Value) (w : World) :
  optionDotAll_for (pre ++ rest) (List.length rest) (List.length pre)
    values_ref values w =
  optionDotAll_scan rest values_ref values w.
Proof.
  revert pre values w.
  induction rest as [|element rest IH]; intros pre values w; simpl.
  - reflexivity.
  - rewrite nth_middle. unfold bind.
    destruct (asOption element w) as [[option|thrown] w']; [|reflexivity].
    destruct (OptionImpl_isSome option); [|reflexivity].
    specialize (IH (pre ++ [element])).
    rewrite <- app_assoc, length_app, Nat.add_comm in IH. apply IH.
Qed.

Lemma resultDotAll_for_is_scan (rest pre values : list Value) (w : World) :
  resultDotAll_for (pre ++ rest) (List.length rest) (List.length pre)
    values_ref values w =
  resultDotAll_scan rest values_ref values w.
Proof.
  revert pre values w.
  induction rest as [|element rest IH]; intros pre values w; simpl.
  - reflexivity.
  - rewrite nth_middle. unfold bind.
    destruct (asResult element w) as [[result|thrown] w']; [|reflexivity].
    destruct (ResultImpl_isOk result); [|reflexivity].
    unfold ResultImpl_safeUnwrap, ret.
    specialize (IH (pre ++ [element])).
    rewrite <- app_assoc, length_app, Nat.add_comm in IH. apply IH.
Qed.

(** Scanning an array of [Option]s. *)
Lemma optionDotAll_scan_options (options : list Option)
    (values : list Value) (w : World) :
  optionDotAll_scan (map VOption options) values_ref values w =
  if forallb OptionImpl_isSome options
  then OptionImpl_some
         (VArray values_ref (values ++ map OptionImpl_value options)) w
  else OptionImpl_none w.
Proof.
  revert values.
  induction options as [|option options IH]; intros values; simpl.
  - now rewrite app_nil_r.
  - unfold bind, ret.
    destruct (OptionImpl_isSome option); simpl; [|reflexivity].
    rewrite IH. now rewrite <- app_assoc.
Qed.

(** Scanning up to an element that stops the scan: a [none], or a value
    that is no [Option] at all. *)
Lemma optionDotAll_scan_stops (pre : list Option) (element : Value)
    (post values : list Value) (w : World) :
  forallb OptionImpl_isSome pre = true ->
  optionDotAll_scan (map VOption pre ++ element :: post) values_ref values w =
  (option <- asOption element ;;
   if OptionImpl_isSome option
   then optionDotAll_scan post values_ref
          (values ++ map OptionImpl_value pre ++ [OptionImpl_value option])
   else OptionImpl_none) w.
Proof.
  revert values.
  induction pre as [|option pre IH]; intros values Hpre; simpl in *.
  - reflexivity.
  - apply andb_prop in Hpre. destruct Hpre as [Hoption Hpre].
    unfold bind at 1, ret. rewrite Hoption.
    rewrite (IH _ Hpre). unfold bind.
    destruct (asOption element w) as [[o|thrown] w']; [|reflexivity].
    destruct (OptionImpl_isSome o); [|reflexivity].
    now rewrite <- !app_assoc.
Qed.

(** Scanning an array of [Result]s. *)
Lemma resultDotAll_scan_results (results : list Result)
    (values : list Value) (w : World) :
  resultDotAll_scan (map VResult results) values_ref values w =
  match find ResultImpl_isErr results with
  | Some first_err => (Return first_err, w)
  | None =>
      ResultImpl_ok
        (VArray values_ref (values ++ map ResultImpl_value results)) w
  end.
Proof.
  revert values.
  induction results as [|result results IH]; intros values; simpl.
  - now rewrite app_nil_r.
  - unfold bind, ret, ResultImpl_isOk, ResultImpl_isErr.
    destruct (ResultImpl_isErr_ result); simpl; [reflexivity|].
    rewrite IH. unfold ResultImpl_isErr. now rewrite <- app_assoc.
Qed.

Lemma resultDotAll_scan_stops (pre : list Result) (element : Value)
    (post values : list Value) (w : World) :
  forallb ResultImpl_isOk pre = true ->
  resultDotAll_scan (map VResult pre ++ element :: post) values_ref values w =
  (result <- asResult element ;;
   if ResultImpl_isOk result
   then resultDotAll_scan post values_ref
          (values ++ map ResultImpl_value pre ++ [ResultImpl_value result])
   else ret result) w.
Proof.
  revert values.
  induction pre as [|result pre IH]; intros values Hpre; simpl in *.
  - reflexivity.
  - apply andb_prop in Hpre. destruct Hpre as [Hresult Hpre].
    unfold bind at 1, ret. rewrite Hresult.
    rewrite (IH _ Hpre). unfold bind.
    destruct (asResult element w) as [[r|thrown] w']; [|reflexivity].
    destruct (ResultImpl_isOk r); [|reflexivity].
    now rewrite <- !app_assoc.
Qed.

End Scan.

Lemma optionDotAll_is_scan (options : list Value) (w : World) :
  optionDotAll options w =
  optionDotAll_scan options (next_ref w) [] (allocated 1 w).
Proof.
  unfold optionDotAll, bind, new_ref.
  apply (optionDotAll_for_is_scan (next_ref w) options [] []).
Qed.

Lemma resultDotAll_is_scan (results : list Value) (w : World) :
  resultDotAll results w =
  resultDotAll_scan results (next_ref w) [] (allocated 1 w).
Proof.
  unfold resultDotAll, bind, new_ref.
  apply (resultDotAll_for_is_scan (next_ref w) results [] []).
Qed.



(** C5.  [option.all(options)] returns a new [Option].  It is [some]
    exactly when every element is [some], and then it wraps a new array
    of the elements' payloads in their order.  When [absent] is the first
    [none] of the array the answer is [none], and nothing after [absent]
    is looked at: the answer is the same whatever follows it, also values
    that are no [Option]s, at which the scan would throw. *)
Theorem optionDotAll_all_or_none :
  forall (options pre : list Option) (absent : Option)
         (post post' : list Value) (w : World),
    forallb OptionImpl_isSome pre = true ->
    OptionImpl_isNone absent = true ->
    (exists o : Option,
       optionDotAll (map VOption options) w = (Return o, allocated 2 w) /\
       OptionImpl_isSome o = forallb OptionImpl_isSome options) /\
    optionDotAll (map VOption pre) w =
      (Return
         (mkOptionImpl (S (next_ref w)) false
            (VArray (next_ref w) (map OptionImpl_value pre))),
       allocated 2 w) /\
    optionDotAll (map VOption pre ++ VOption absent :: post) w =
      (Return (mkOptionImpl (S (next_ref w)) true VUndefined),
       allocated 2 w) /\
    optionDotAll (map VOption pre ++ VOption absent :: post) w =
      optionDotAll (map VOption pre ++ VOption absent :: post') w.
Proof.
  intros options pre absent post post' w Hpre Habsent.
  assert (Hstop : forall rest,
    optionDotAll (map VOption pre ++ VOption absent :: rest) w =
      (Return (mkOptionImpl (S (next_ref w)) true VUndefined),
       allocated 2 w)).
  { intros rest.
    rewrite optionDotAll_is_scan, optionDotAll_scan_stops by exact Hpre.
    unfold asOption, bind, ret, OptionImpl_isSome. now rewrite Habsent. }
  repeat split.
  - rewrite optionDotAll_is_scan, optionDotAll_scan_options.
    destruct (forallb OptionImpl_isSome options);
      eexists; split; reflexivity.
  - rewrite optionDotAll_is_scan, optionDotAll_scan_options.
    now rewrite Hpre.
  - apply Hstop.
  - now rewrite !Hstop.
Qed.

Lemma optionDotAll_all_or_none_witness :
  optionDotAll
    [VOption (mkOptionImpl 0 false (VNumber 1));
     VOption (mkOptionImpl 1 false (VNumber 2))]
    (mkWorld 4 []) =
    (Return (mkOptionImpl 5 false (VArray 4 [VNumber 1; VNumber 2])),
     mkWorld 6 []) /\
  optionDotAll
    [VOption (mkOptionImpl 0 false (VNumber 1));
     VOption (mkOptionImpl 1 false (VNumber 2));
     VOption (mkOptionImpl 2 true VUndefined);
     VOption (mkOptionImpl 3 false (VNumber 3)); VUndefined]
    (mkWorld 4 []) =
    (Return (mkOptionImpl 5 true VUndefined), mkWorld 6 []).
Proof.
  destruct (optionDotAll_all_or_none
              []
              [mkOptionImpl 0 false (VNumber 1);
               mkOptionImpl 1 false (VNumber 2)]
              (mkOptionImpl 2 true VUndefined)
              [VOption (mkOptionImpl 3 false (VNumber 3)); VUndefined] []
              (mkWorld 4 []) eq_refl eq_refl) as (_ & Hall & Hnone & _).
  split; [exact Hall | exact Hnone].
Defined.

(** C4.  [result.all(results)] returns the first [err] of the array, in
    the order of the array, when there is one: the element itself, the
    same object, and no new [Result].  When there is none it returns a new
    [ok] around a new array of the elements' payloads in their order.
    When [failure] is the first [err], nothing after it is looked at: the
    answer is the same whatever follows it, also values that are no
    [Result]s, at which the scan would throw. *)
Theorem resultDotAll_all_or_first_err :
  forall (results pre : list Result) (failure : Result)
         (post post' : list Value) (w : World),
    forallb ResultImpl_isOk pre = true ->
    ResultImpl_isErr failure = true ->
    resultDotAll (map VResult results) w =
      match find ResultImpl_isErr results with
      | Some first_err => (Return first_err, allocated 1 w)
      | None =>
          (Return
             (mkResultImpl (S (next_ref w)) false
                (VArray (next_ref w) (map ResultImpl_value results))),
           allocated 2 w)
      end /\
    resultDotAll (map VResult pre) w =
      (Return
         (mkResultImpl (S (next_ref w)) false
            (VArray (next_ref w) (map ResultImpl_value pre))),
       allocated 2 w) /\
    resultDotAll (map VResult pre ++ VResult failure :: post) w =
      (Return failure, allocated 1 w) /\
    resultDotAll (map VResult pre ++ VResult failure :: post) w =
      resultDotAll (map VResult pre ++ VResult failure :: post') w.
Proof.
  intros results pre failure post post' w Hpre Hfailure.
  assert (Hstop : forall rest,
    resultDotAll (map VResult pre ++ VResult failure :: rest) w =
      (Return failure, allocated 1 w)).
  { intros rest.
    rewrite resultDotAll_is_scan, resultDotAll_scan_stops by exact Hpre.
    unfold asResult, bind, ret, ResultImpl_isOk.
    unfold ResultImpl_isErr in Hfailure. now rewrite Hfailure. }
  assert (Hrun : forall rs,
    resultDotAll (map VResult rs) w =
      match find ResultImpl_isErr rs with
      | Some first_err => (Return first_err, allocated 1 w)
      | None =>
          (Return
             (mkResultImpl (S (next_ref w)) false
                (VArray (next_ref w) (map ResultImpl_value rs))),
           allocated 2 w)
      end).
  { intros rs. rewrite resultDotAll_is_scan, resultDotAll_scan_results.
    destruct (find ResultImpl_isErr rs); reflexivity. }
  repeat split.
  - apply Hrun.
  - rewrite Hrun.
    replace (find ResultImpl_isErr pre) with (@None Result); [reflexivity|].
    clear Hstop. induction pre as [|r pre IH]; simpl in *; [reflexivity|].
    apply andb_prop in Hpre. destruct Hpre as [Hr Hpre].
    unfold ResultImpl_isOk in Hr. unfold ResultImpl_isErr at 1.
    destruct (ResultImpl_isErr_ r); [discriminate|]. now apply IH.
  - apply Hstop.
  - now rewrite !Hstop.
Qed.

Lemma resultDotAll_all_or_first_err_witness :
  resultDotAll
    [VResult (mkResultImpl 0 false (VNumber 1));
     VResult (mkResultImpl 1 true (VString "x"));
     VResult (mkResultImpl 2 false (VNumber 3));
     VResult (mkResultImpl 3 true (VString "y"))]
    (mkWorld 4 []) =
    (Return (mkResultImpl 1 true (VString "x")), mkWorld 5 []) /\
  resultDotAll [VResult (mkResultImpl 0 false (VNumber 1))] (mkWorld 4 []) =
    (Return (mkResultImpl 5 false (VArray 4 [VNumber 1])), mkWorld 6 []).
Proof.
  destruct (resultDotAll_all_or_first_err
              []
              [mkResultImpl 0 false (VNumber 1)]
              (mkResultImpl 1 true (VString "x"))
              [VResult (mkResultImpl 2 false (VNumber 3));
               VResult (mkResultImpl 3 true (VString "y"))] []
              (mkWorld 4 []) eq_refl eq_refl) as (_ & Hall & Hfirst & _).
  split; [exact Hfirst | exact Hall].
Defined.

(** ** The repository's tests, replayed *)

(** [test/option.all.spec.ts] *)
Example option_all_spec :
  let program :=
    a <- option_some (VString "foo") ;;
    b <- option_none ;;
    c <- option_some (VNumber 42) ;;
    d <- option_some VNull ;;
    abcd <- optionDotAll [VOption a; VOption b; VOption c; VOption d] ;;
    acd <- optionDotAll [VOption a; VOption c; VOption d] ;;
    unwrapped <- OptionImpl_unwrap acd ;;
    ret (OptionImpl_isNone abcd, OptionImpl_isSome acd, unwrapped) in
  completion program (mkWorld 0 []) =
    Return (true, true, VArray 6 [VString "foo"; VNumber 42; VNull]).
Proof. reflexivity. Qed.

(** [test/result.all.spec.ts], second test *)
Example result_all_spec :
  let program :=
    a <- result_ok (VNumber 1) ;;
    b <- result_ok (VNumber 2) ;;
    errC <- result_err (VNumber 3) ;;
    d <- result_ok (VNumber 4) ;;
    errE <- result_err (VNumber 5) ;;
    all <- resultDotAll
             [VResult a; VResult b; VResult errC; VResult d; VResult errE] ;;
    ResultImpl_expectErr all
      (VString "result.all() should return an err if one of the values is an err") in
  completion program (mkWorld 0 []) = Return (VNumber 3).
Proof. reflexivity. Qed.

(** [test/option.fromVoidable.spec.ts] *)
Example option_fromVoidable_spec :
  let toEqual (actual expected : M Option) :=
    match completion actual (mkWorld 0 []),
          completion expected (mkWorld 7 []) with
    | Return a, Return e => structEq (VOption a) (VOption e)
    | _, _ => false
    end in
  toEqual (option_fromVoidable VUndefined) option_none = true /\
  toEqual (option_fromVoidable VNull) option_none = true /\
  toEqual (option_fromVoidable (VNumber 0)) (option_some (VNumber 0)) = true /\
  toEqual (option_fromVoidable (VString "")) (option_some (VString "")) = true /\
  toEqual (option_fromVoidable (VBoolean false))
    (option_some (VBoolean false)) = true.
Proof. repeat split. Qed.

(** [optionImplTester.ts], "unwrap() throws an UnwrapError with the
    correct message if `this` is none" *)
Example option_unwrap_none_spec :
  completion (o <- option_none ;; OptionImpl_unwrap o) (mkWorld 0 []) =
    Throw (VError 1 "UnwrapError" "Tried to call unwrap() on option.none()").
Proof. reflexivity. Qed.

(** [resultImplTester.ts], "Result.prototype.safeUnwrap" *)
Example result_safeUnwrap_spec :
  completion (res <- result_ok (VString "foo") ;; ResultImpl_safeUnwrap res)
    (mkWorld 0 []) = Return (VString "foo").
Proof. reflexivity. Qed.

(** A scan that reaches a hole of the array throws; behind a [none] the
    hole is never reached. *)
Example option_all_hole :
  completion (optionDotAll [VOption (mkOptionImpl 0 false VNull); VUndefined])
    (mkWorld 2 []) = Throw (VError 3 "TypeError" "not a function") /\
  completion
    (optionDotAll [VOption (mkOptionImpl 0 true VUndefined); VUndefined])
    (mkWorld 2 []) = Return (mkOptionImpl 3 true VUndefined).
Proof. split; reflexivity. Qed.

(** * Further properties of the two classes *)

Lemma structEqCompletion_refl (c : Completion Value) :
  structEqCompletion c c = true.
Proof. destruct c; simpl; apply structEq_refl. Qed.

(** ** [map] and [mapErr] *)

(** X1.  [Option]'s [map] obeys the functor laws up to structural
    equality: mapping the identity gives an [Option] structurally equal
    to the receiver, and mapping [f] and then [g] gives an [Option]
    structurally equal to mapping their composition. *)
Theorem Option_map_functor_laws :
  forall (this : Option) (f g : Value -> Value) (w : World),
    exists same twice composed : Option,
      completion (OptionImpl_map this (pure_fn (fun v => v))) w =
        Return same /\
      structEqOption same this = true /\
      completion
        (mapped <- OptionImpl_map this (pure_fn f) ;;
         OptionImpl_map mapped (pure_fn g)) w = Return twice /\
      completion (OptionImpl_map this (pure_fn (fun v => g (f v)))) w =
        Return composed /\
      structEqOption twice composed = true.
Proof.
  intros [ref [|] value] f g w;
    do 3 eexists; run_all; repeat split; simpl; apply structEq_refl.
Qed.

(** X2.  [Result]'s [map] and [mapErr] obey the functor laws up to
    structural equality, each on its own side. *)
Theorem Result_map_functor_laws :
  forall (this : Result) (f g : Value -> Value) (w : World),
    exists same same' twice composed twice' composed' : Result,
      completion (ResultImpl_map this (pure_fn (fun v => v))) w =
        Return same /\
      structEqResult same this = true /\
      completion (ResultImpl_mapErr this (pure_fn (fun v => v))) w =
        Return same' /\
      structEqResult same' this = true /\
      completion
        (mapped <- ResultImpl_map this (pure_fn f) ;;
         ResultImpl_map mapped (pure_fn g)) w = Return twice /\
      completion (ResultImpl_map this (pure_fn (fun v => g (f v)))) w =
        Return composed /\
      structEqResult twice composed = true /\
      completion
        (mapped <- ResultImpl_mapErr this (pure_fn f) ;;
         ResultImpl_mapErr mapped (pure_fn g)) w = Return twice' /\
      completion (ResultImpl_mapErr this (pure_fn (fun v => g (f v)))) w =
        Return composed' /\
      structEqResult twice' composed' = true.
Proof.
  intros [ref [|] value] f g w;
    do 6 eexists; run_all; repeat split; simpl; apply structEq_refl.
Qed.


(** ** [andThen] and [flatten] *)

(** X4.  [Option]'s [andThen] obeys the monad laws.  [some(v).andThen(f)]
    is the call [f(v)].  Chaining the constructor [some] gives an
    [Option] structurally equal to the receiver.  Chaining [f] and then
    [g] completes as chaining [v => f(v).andThen(g)] does: with the same
    kind of completion and structurally equal values, whatever [f] and
    [g] do. *)
Theorem Option_andThen_monad_laws :
  forall (this : Option) (v : Value) (f g : list Value -> M Value)
         (w : World),
    OptionImpl_wf this = true ->
    (o <- option_some v ;; OptionImpl_andThen o f) w =
      f [v] (allocated 1 w) /\
    structEqCompletion
      (completion
         (OptionImpl_andThen this
            (fun args => o <- option_some (first_arg args) ;;
                         ret (VOption o))) w)
      (Return (VOption this)) = true /\
    structEqCompletion
      (completion
         (x <- OptionImpl_andThen this f ;; Value_andThen x g) w)
      (completion
         (OptionImpl_andThen this
            (fun args => x <- f args ;; Value_andThen x g)) w) = true.
Proof.
  intros [ref [|] value] v f g w Hwf; unfold OptionImpl_wf in Hwf;
    simpl in Hwf.
  - destruct value; try discriminate.
    run_all. repeat split.
  - run_all. repeat split.
    + apply structEq_refl.
    + apply structEqCompletion_refl.
Qed.

Lemma Option_andThen_monad_laws_witness :
  (o <- option_some (VNumber 1) ;;
   OptionImpl_andThen o (pure_fn (fun v => v))) (mkWorld 0 []) =
    pure_fn (fun v => v) [VNumber 1] (allocated 1 (mkWorld 0 [])).
Proof.
  apply (Option_andThen_monad_laws
           (mkOptionImpl 0 true VUndefined) (VNumber 1)
           (pure_fn (fun v => v)) (pure_fn (fun v => v)) (mkWorld 0 [])).
  reflexivity.
Defined.

(** X5.  [Result]'s [andThen] obeys the monad laws.  [ok(v).andThen(f)]
    is the call [f(v)].  Chaining the constructor [ok] gives a [Result]
    structurally equal to the receiver.  Chaining [f] and then [g] is
    the same computation as chaining [v => f(v).andThen(g)]: the same
    completion and the same world, whatever [f] and [g] do. *)
Theorem Result_andThen_monad_laws :
  forall (this : Result) (v : Value) (f g : list Value -> M Value)
         (w : World),
    (r <- result_ok v ;; ResultImpl_andThen r f) w =
      f [v] (allocated 1 w) /\
    structEqCompletion
      (completion
         (ResultImpl_andThen this
            (fun args => r <- result_ok (first_arg args) ;;
                         ret (VResult r))) w)
      (Return (VResult this)) = true /\
    (x <- ResultImpl_andThen this f ;; Value_andThen x g) w =
    ResultImpl_andThen this
      (fun args => x <- f args ;; Value_andThen x g) w.
Proof.
  intros [ref [|] value] v f g w; run_all; repeat split;
    apply structEq_refl.
Qed.

(** X6.  [flatten] undoes one [some]: [some(x).flatten()] returns [x]
    itself, the same object, and does not ask whether [x] is an [Option].
    [none().flatten()] is a new [none].  Mapping a callback and then
    flattening completes exactly as chaining the callback does. *)
Theorem Option_flatten_undoes_some :
  forall (this : Option) (x : Value) (f : list Value -> M Value)
         (w : World),
    (o <- option_some x ;; OptionImpl_flatten o) w =
      (Return x, allocated 1 w) /\
    (o <- option_none ;; OptionImpl_flatten o) w =
      (Return (VOption (mkOptionImpl (S (next_ref w)) true VUndefined)),
       allocated 2 w) /\
    completion
      (mapped <- OptionImpl_map this f ;; OptionImpl_flatten mapped) w =
    completion (OptionImpl_andThen this f) w.
Proof.
  intros [ref [|] value] x f w; run_all; repeat split.
  destruct (f [value] w) as [[mapped|thrown] w']; reflexivity.
Qed.

(** ** [and], [or], [xor] and [filter] *)

(** X7.  Presence under [and], [or] and [xor] of two [Option]s is the
    conjunction, the disjunction and the exclusive disjunction of their
    presences.  [or] returns one of the two operands themselves; [and]
    returns the second operand itself or a new [none]; [xor] returns the
    one operand that is [some], or the second operand when both are
    [none], or a new [none] when both are [some]. *)
Theorem Option_and_or_xor_presence :
  forall (a b : Option) (w : World),
    let fresh := mkOptionImpl (next_ref w) true VUndefined in
    let r_and := if OptionImpl_isSome a then b else fresh in
    let r_or := if OptionImpl_isSome a then a else b in
    let r_xor :=
      if OptionImpl_isSome a
      then (if OptionImpl_isSome b then fresh else a)
      else b in
    completion (OptionImpl_and a (VOption b)) w = Return (VOption r_and) /\
    completion (OptionImpl_or a (VOption b)) w = Return (VOption r_or) /\
    completion (OptionImpl_xor a b) w = Return (VOption r_xor) /\
    OptionImpl_isSome r_and = OptionImpl_isSome a && OptionImpl_isSome b /\
    OptionImpl_isSome r_or = OptionImpl_isSome a || OptionImpl_isSome b /\
    OptionImpl_isSome r_xor = xorb (OptionImpl_isSome a) (OptionImpl_isSome b).
Proof.
  intros [ra [|] va] [rb [|] vb] w; run_all; repeat split.
Qed.

(** X8.  [Result]'s [and] and [or] create nothing: they return one of the
    two operands themselves and leave the world as it was.  [a.and(b)] is
    [ok] exactly when both are, and is [a] when [a] is an [err]: the
    first error wins.  [a.or(b)] is [ok] exactly when one of them is, and
    is [b] when [a] is an [err]: the last error wins. *)
Theorem Result_and_or_operands :
  forall (a b : Result) (w : World),
    let r_and := if ResultImpl_isOk a then b else a in
    let r_or := if ResultImpl_isOk a then a else b in
    ResultImpl_and a (VResult b) w = (Return (VResult r_and), w) /\
    ResultImpl_or a (VResult b) w = (Return (VResult r_or), w) /\
    ResultImpl_isOk r_and = ResultImpl_isOk a && ResultImpl_isOk b /\
    ResultImpl_isOk r_or = ResultImpl_isOk a || ResultImpl_isOk b.
Proof.
  intros [ra [|] va] [rb [|] vb] w; run_all; repeat split.
Qed.

(** X9.  [filter] keeps or drops, it never copies: the result is the
    receiver itself when the receiver is [some] and the predicate's
    answer is truthy, and a new [none] otherwise.  Filtering the result
    again by the same predicate changes nothing up to structural
    equality. *)
Theorem Option_filter_keeps_or_drops :
  forall (this : Option) (p : Value -> Value) (w : World),
    let kept :=
      if OptionImpl_isSome this && ToBoolean (p (OptionImpl_value this))
      then this
      else mkOptionImpl (next_ref w) true VUndefined in
    completion (OptionImpl_filter this (pure_fn p)) w =
      Return (VOption kept) /\
    OptionImpl_isSome kept =
      OptionImpl_isSome this && ToBoolean (p (OptionImpl_value this)) /\
    structEqCompletion
      (completion (OptionImpl_filter kept (pure_fn p))
         (world_after (OptionImpl_filter this (pure_fn p)) w))
      (Return (VOption kept)) = true.
Proof.
  intros [ref [|] value] p w; run_all.
  - repeat split.
  - destruct (ToBoolean (p value)) eqn:Hp; simpl.
    + rewrite Hp. simpl. repeat split. apply structEq_refl.
    + repeat split.
Qed.

(** ** Which callback is called, and how often *)

Ltac run_mock implementation :=
  run_all;
  repeat match goal with
  | |- context [implementation ?args ?n] =>
      destruct (implementation args n) as [[?|?] ?]; simpl
  end;
  repeat split.

(** X10.  The callbacks of [OptionImpl], counted by a mock around any
    implementation.  On a [none], [map], [andThen], [filter],
    [someSatisfies] and [ifSome] do not call theirs, and [orElse] and
    [ifNone] call theirs once, with no argument.  On a [some], the first
    five call theirs once, with the wrapped value as the only argument,
    and [orElse] and [ifNone] do not call theirs. *)
Theorem Option_callbacks_called_on_their_variant :
  forall (implementation : Implementation) (absent present : Option)
         (w : World),
    OptionImpl_isNone absent = true ->
    OptionImpl_isSome present = true ->
    let mock := jest_fn implementation in
    let calls {A} (m : M A) := mock_calls (world_after m w) in
    let once := mock_calls w ++ [[OptionImpl_value present]] in
    (calls (OptionImpl_map absent mock) = mock_calls w /\
     calls (OptionImpl_andThen absent mock) = mock_calls w /\
     calls (OptionImpl_filter absent mock) = mock_calls w /\
     calls (OptionImpl_someSatisfies absent mock) = mock_calls w /\
     calls (OptionImpl_ifSome absent mock) = mock_calls w /\
     calls (OptionImpl_orElse absent mock) = mock_calls w ++ [[]] /\
     calls (OptionImpl_ifNone absent mock) = mock_calls w ++ [[]]) /\
    (calls (OptionImpl_map present mock) = once /\
     calls (OptionImpl_andThen present mock) = once /\
     calls (OptionImpl_filter present mock) = once /\
     calls (OptionImpl_someSatisfies present mock) = once /\
     calls (OptionImpl_ifSome present mock) = once /\
     calls (OptionImpl_orElse present mock) = mock_calls w /\
     calls (OptionImpl_ifNone present mock) = mock_calls w).
Proof.
  intros implementation [r1 n1 v1] [r2 n2 v2] w Hnone Hsome.
  simpl in Hnone, Hsome. unfold OptionImpl_isSome in Hsome.
  simpl in Hsome. subst n1. destruct n2; [discriminate|].
  cbv zeta. split.
  - run_mock implementation.
  - run_mock implementation;
      match goal with
      | |- context [ToBoolean ?v] => destruct (ToBoolean v); reflexivity
      end.
Qed.

Lemma Option_callbacks_called_on_their_variant_witness :
  mock_calls
    (world_after
       (OptionImpl_map (mkOptionImpl 0 true VUndefined)
          (jest_fn (fun _ n => (Return VNull, n)))) (mkWorld 2 [])) = [] /\
  mock_calls
    (world_after
       (OptionImpl_map (mkOptionImpl 1 false (VNumber 4))
          (jest_fn (fun _ n => (Return VNull, n)))) (mkWorld 2 [])) =
    [[VNumber 4]].
Proof.
  destruct (Option_callbacks_called_on_their_variant
              (fun _ n => (Return VNull, n))
              (mkOptionImpl 0 true VUndefined)
              (mkOptionImpl 1 false (VNumber 4))
              (mkWorld 2 []) eq_refl eq_refl)
    as ((Hnone & _) & (Hsome & _)).
  split; [exact Hnone | exact Hsome].
Defined.

(** X11.  The callbacks of [ResultImpl], counted likewise.  On an [ok],
    [map], [andThen], [ifOk] and [okSatisfies] call theirs once, with the
    wrapped value, and [mapErr], [orElse], [ifErr] and [errSatisfies] do
    not call theirs; on an [err] it is the other way round, and the
    argument is the wrapped error. *)
Theorem Result_callbacks_called_on_their_variant :
  forall (implementation : Implementation) (success failure : Result)
         (w : World),
    ResultImpl_isOk success = true ->
    ResultImpl_isErr failure = true ->
    let mock := jest_fn implementation in
    let calls {A} (m : M A) := mock_calls (world_after m w) in
    let once_ok := mock_calls w ++ [[ResultImpl_value success]] in
    let once_err := mock_calls w ++ [[ResultImpl_value failure]] in
    (calls (ResultImpl_map success mock) = once_ok /\
     calls (ResultImpl_andThen success mock) = once_ok /\
     calls (ResultImpl_ifOk success mock) = once_ok /\
     calls (ResultImpl_okSatisfies success mock) = once_ok /\
     calls (ResultImpl_mapErr success mock) = mock_calls w /\
     calls (ResultImpl_orElse success mock) = mock_calls w /\
     calls (ResultImpl_ifErr success mock) = mock_calls w /\
     calls (ResultImpl_errSatisfies success mock) = mock_calls w) /\
    (calls (ResultImpl_map failure mock) = mock_calls w /\
     calls (ResultImpl_andThen failure mock) = mock_calls w /\
     calls (ResultImpl_ifOk failure mock) = mock_calls w /\
     calls (ResultImpl_okSatisfies failure mock) = mock_calls w /\
     calls (ResultImpl_mapErr failure mock) = once_err /\
     calls (ResultImpl_orElse failure mock) = once_err /\
     calls (ResultImpl_ifErr failure mock) = once_err /\
     calls (ResultImpl_errSatisfies failure mock) = once_err).
Proof.
  intros implementation [r1 e1 v1] [r2 e2 v2] w Hok Herr.
  unfold ResultImpl_isOk in Hok. simpl in Hok, Herr.
  subst e2. destruct e1; [discriminate|].
  cbv zeta. split; run_mock implementation.
Qed.

Lemma Result_callbacks_called_on_their_variant_witness :
  mock_calls
    (world_after
       (ResultImpl_mapErr (mkResultImpl 0 false (VNumber 4))
          (jest_fn (fun _ n => (Return VNull, n)))) (mkWorld 2 [])) = [] /\
  mock_calls
    (world_after
       (ResultImpl_mapErr (mkResultImpl 1 true (VString "bar"))
          (jest_fn (fun _ n => (Return VNull, n)))) (mkWorld 2 [])) =
    [[VString "bar"]].
Proof.
  destruct (Result_callbacks_called_on_their_variant
              (fun _ n => (Return VNull, n))
              (mkResultImpl 0 false (VNumber 4))
              (mkResultImpl 1 true (VString "bar"))
              (mkWorld 2 []) eq_refl eq_refl)
    as ((_ & _ & _ & _ & Hok & _) & (_ & _ & _ & _ & Herr & _)).
  split; [exact Hok | exact Herr].
Defined.

(** ** What throws and what does not *)

Ltac run_callback callback Hcallback :=
  run_all;
  repeat match goal with
  | |- context [callback ?args ?w] =>
      let a := fresh "a" in
      let w' := fresh "w'" in
      let E := fresh "E" in
      destruct (Hcallback args w) as (a & w' & E); rewrite E; simpl
  end;
  repeat match goal with
  | |- context [if ?c then _ else _] => destruct c; simpl
  end;
  eauto.

(** X12.  Apart from the [unwrap] and [expect] family, a method of
    [OptionImpl] throws only what its callback throws: with a callback
    that returns, and for [xor] an argument that is an [Option], every
    one of them returns. *)
Theorem Option_methods_throw_only_through_callbacks :
  forall (this other : Option) (v : Value)
         (callback : list Value -> M Value),
    (forall args, never_throws (callback args)) ->
    never_throws (OptionImpl_map this callback) /\
    never_throws (OptionImpl_ifSome this callback) /\
    never_throws (OptionImpl_ifNone this callback) /\
    never_throws (OptionImpl_unwrapOr this v) /\
    never_throws (OptionImpl_unwrapOrElse this callback) /\
    never_throws (OptionImpl_and this v) /\
    never_throws (OptionImpl_andThen this callback) /\
    never_throws (OptionImpl_or this v) /\
    never_throws (OptionImpl_orElse this callback) /\
    never_throws (OptionImpl_filter this callback) /\
    never_throws (OptionImpl_flatten this) /\
    never_throws (OptionImpl_array this) /\
    never_throws (OptionImpl_xor this other) /\
    never_throws (OptionImpl_equalsSome this v) /\
    never_throws (OptionImpl_someSatisfies this callback).
Proof.
  intros [ref isNone_ value] [ref' isNone_' value'] v callback Hcallback.
  unfold never_throws in *.
  repeat split; intros w; destruct isNone_; try destruct isNone_';
    run_callback callback Hcallback.
Qed.

Lemma Option_methods_throw_only_through_callbacks_witness :
  never_throws
    (OptionImpl_map (mkOptionImpl 0 false (VNumber 4))
       (pure_fn (fun v => v))).
Proof.
  apply (Option_methods_throw_only_through_callbacks
           (mkOptionImpl 0 false (VNumber 4))
           (mkOptionImpl 1 true VUndefined) VNull (pure_fn (fun v => v))).
  intros args w. exists (first_arg args), w. reflexivity.
Defined.

(** X13.  Apart from the [unwrap] and [expect] family and the two
    [...OrThrow...] methods, a method of [ResultImpl] throws only what
    its callback throws: with a callback that returns, every one of them
    returns. *)
Theorem Result_methods_throw_only_through_callbacks :
  forall (this : Result) (v : Value) (callback : list Value -> M Value),
    (forall args, never_throws (callback args)) ->
    never_throws (ResultImpl_prototype_ok this) /\
    never_throws (ResultImpl_prototype_err this) /\
    never_throws (ResultImpl_map this callback) /\
    never_throws (ResultImpl_mapErr this callback) /\
    never_throws (ResultImpl_ifOk this callback) /\
    never_throws (ResultImpl_ifErr this callback) /\
    never_throws (ResultImpl_unwrapOr this v) /\
    never_throws (ResultImpl_unwrapOrElse this callback) /\
    never_throws (ResultImpl_and this v) /\
    never_throws (ResultImpl_andThen this callback) /\
    never_throws (ResultImpl_or this v) /\
    never_throws (ResultImpl_orElse this callback) /\
    never_throws (ResultImpl_array this) /\
    never_throws (ResultImpl_okSatisfies this callback) /\
    never_throws (ResultImpl_errSatisfies this callback) /\
    never_throws (ResultImpl_reverse this) /\
    never_throws (ResultImpl_safeUnwrap this).
Proof.
  intros [ref isErr_ value] v callback Hcallback.
  unfold never_throws in *.
  repeat split; intros w; destruct isErr_;
    run_callback callback Hcallback.
Qed.

Lemma Result_methods_throw_only_through_callbacks_witness :
  never_throws
    (ResultImpl_mapErr (mkResultImpl 0 true (VNumber 4))
       (pure_fn (fun v => v))).
Proof.
  apply (Result_methods_throw_only_through_callbacks
           (mkResultImpl 0 true (VNumber 4)) VNull (pure_fn (fun v => v))).
  intros args w. exists (first_arg args), w. reflexivity.
Defined.

(** X14.  [unwrapOrThrowErr()] on an [err] throws the wrapped error
    itself, whatever it is, and creates no [UnwrapError];
    [unwrapErrOrThrowOk()] on an [ok] throws the wrapped value itself.
    On the other variant each returns the wrapped value.  One is the
    other on the reversed [Result]. *)
Theorem Result_unwrapOrThrow_throws_the_payload :
  forall (success failure : Result) (w : World),
    ResultImpl_isOk success = true ->
    ResultImpl_isErr failure = true ->
    ResultImpl_unwrapOrThrowErr failure w =
      (Throw (ResultImpl_value failure), w) /\
    ResultImpl_unwrapOrThrowErr success w =
      (Return (ResultImpl_value success), w) /\
    ResultImpl_unwrapErrOrThrowOk success w =
      (Throw (ResultImpl_value success), w) /\
    ResultImpl_unwrapErrOrThrowOk failure w =
      (Return (ResultImpl_value failure), w) /\
    completion
      (reversed <- ResultImpl_reverse failure ;;
       ResultImpl_unwrapErrOrThrowOk reversed) w =
      completion (ResultImpl_unwrapOrThrowErr failure) w /\
    completion
      (reversed <- ResultImpl_reverse success ;;
       ResultImpl_unwrapErrOrThrowOk reversed) w =
      completion (ResultImpl_unwrapOrThrowErr success) w.
Proof.
  intros [r1 e1 v1] [r2 e2 v2] w Hok Herr.
  unfold ResultImpl_isOk in Hok. simpl in Hok, Herr.
  subst e2. destruct e1; [discriminate|].
  run_all. repeat split.
Qed.

Lemma Result_unwrapOrThrow_throws_the_payload_witness :
  ResultImpl_unwrapOrThrowErr
    (mkResultImpl 1 true (VError 0 "Error" "foo")) (mkWorld 2 []) =
    (Throw (VError 0 "Error" "foo"), mkWorld 2 []).
Proof.
  apply (Result_unwrapOrThrow_throws_the_payload
           (mkResultImpl 3 false VNull)
           (mkResultImpl 1 true (VError 0 "Error" "foo"))
           (mkWorld 2 [])); reflexivity.
Defined.

(** X15.  [Result]'s [unwrap()] on an [err] throws a new [UnwrapError]
    with the message ["Tried to call unwrap() on result.err()"], and
    [unwrapErr()] on an [ok] one with the message
    ["Tried to call unwrapErr() on result.ok()"].  On the variant they
    accept, [unwrap], [unwrapErr], [expect] and [expectErr] return the
    wrapped value and create no error object, whatever the message
    given; so does [Option]'s [expect] on a [some]. *)
Theorem Result_unwrap_messages :
  forall (success failure : Result) (present : Option)
         (message : Value) (w : World),
    ResultImpl_isOk success = true ->
    ResultImpl_isErr failure = true ->
    OptionImpl_isSome present = true ->
    ResultImpl_unwrap failure w =
      (Throw (VError (next_ref w) "UnwrapError"
                "Tried to call unwrap() on result.err()"),
       allocated 1 w) /\
    ResultImpl_unwrapErr success w =
      (Throw (VError (next_ref w) "UnwrapError"
                "Tried to call unwrapErr() on result.ok()"),
       allocated 1 w) /\
    ResultImpl_unwrap success w = (Return (ResultImpl_value success), w) /\
    ResultImpl_unwrapErr failure w = (Return (ResultImpl_value failure), w) /\
    ResultImpl_expect success message w =
      (Return (ResultImpl_value success), w) /\
    ResultImpl_expectErr failure message w =
      (Return (ResultImpl_value failure), w) /\
    OptionImpl_expect present message w =
      (Return (OptionImpl_value present), w).
Proof.
  intros [r1 e1 v1] [r2 e2 v2] [r3 n3 v3] message w Hok Herr Hsome.
  unfold ResultImpl_isOk in Hok. unfold OptionImpl_isSome in Hsome.
  simpl in Hok, Herr, Hsome.
  subst e2. destruct e1; [discriminate|]. destruct n3; [discriminate|].
  run_all. repeat split.
Qed.

Lemma Result_unwrap_messages_witness :
  ResultImpl_unwrap (mkResultImpl 0 true (VString "bar")) (mkWorld 3 []) =
    (Throw (VError 3 "UnwrapError" "Tried to call unwrap() on result.err()"),
     mkWorld 4 []).
Proof.
  apply (Result_unwrap_messages
           (mkResultImpl 1 false VNull)
           (mkResultImpl 0 true (VString "bar"))
           (mkOptionImpl 2 false VNull) VNull (mkWorld 3 []));
    reflexivity.
Defined.



(** X17.  [transpose] calls [match] on the payload.  On a [some] whose
    payload is no [Result], and on an [ok] whose payload is no [Option],
    it throws a [TypeError]; strings apart, which have a [match] method
    of their own. *)
Theorem transpose_throws_TypeError_at_a_foreign_payload :
  forall (foreign : Value) (w : World),
    typeof foreign <> "string" ->
    (forall o, foreign <> VOption o) ->
    (forall r, foreign <> VResult r) ->
    (exists ref message,
       completion (o <- option_some foreign ;; OptionImpl_transpose o) w =
         Throw (VError ref "TypeError" message)) /\
    (exists ref message,
       completion (r <- result_ok foreign ;; ResultImpl_transpose r) w =
         Throw (VError ref "TypeError" message)).
Proof.
  intros foreign w Hstring Hoption Hresult.
  destruct foreign; try (now elim Hstring);
    try (now elim (Hoption o)); try (now elim (Hresult r));
    run_all; split; do 2 eexists; reflexivity.
Qed.

Lemma transpose_throws_TypeError_at_a_foreign_payload_witness :
  exists ref message,
    completion (o <- option_some (VNumber 42) ;; OptionImpl_transpose o)
      (mkWorld 0 []) = Throw (VError ref "TypeError" message).
Proof.
  apply (transpose_throws_TypeError_at_a_foreign_payload
           (VNumber 42) (mkWorld 0 []));
    intros x; discriminate.
Defined.

(** ** Projections, arrays and defaults *)

(** X18.  [ok()] and [err()] are complementary projections of a
    [Result]: each returns a new [Option], [ok()] is [some] of the
    wrapped value exactly when the [Result] is [ok] and [none] otherwise,
    [err()] is [some] of the wrapped error exactly when it is [err], and
    [reverse()] exchanges the two up to structural equality. *)
Theorem Result_ok_err_projections :
  forall (this : Result) (w : World),
    let present := mkOptionImpl (next_ref w) false (ResultImpl_value this) in
    let absent := mkOptionImpl (next_ref w) true VUndefined in
    ResultImpl_prototype_ok this w =
      (Return (if ResultImpl_isOk this then present else absent),
       allocated 1 w) /\
    ResultImpl_prototype_err this w =
      (Return (if ResultImpl_isErr this then present else absent),
       allocated 1 w) /\
    (exists o e : Option,
       completion
         (reversed <- ResultImpl_reverse this ;;
          ResultImpl_prototype_ok reversed) w = Return o /\
       structEqOption o
         (if ResultImpl_isErr this then present else absent) = true /\
       completion
         (reversed <- ResultImpl_reverse this ;;
          ResultImpl_prototype_err reversed) w = Return e /\
       structEqOption e
         (if ResultImpl_isOk this then present else absent) = true).
Proof.
  intros [ref [|] value] w; run_all; repeat split;
    do 2 eexists; repeat split; simpl; apply structEq_refl.
Qed.

(** X19.  [array()] returns a new array at every call: empty for a
    [none], the wrapped value alone for a [some].  Two calls on one
    [Option] return two arrays that are not the same object.  A
    [Result]'s [array()] is structurally equal to the [array()] of its
    [ok()] projection. *)
Theorem array_has_the_payload_or_nothing :
  forall (this : Option) (r : Result) (w : World),
    OptionImpl_array this w =
      (Return
         (VArray (next_ref w)
            (if OptionImpl_isSome this then [OptionImpl_value this] else [])),
       allocated 1 w) /\
    completion
      (first <- OptionImpl_array this ;;
       second <- OptionImpl_array this ;;
       ret (strictEq first second)) w = Return false /\
    structEqCompletion
      (completion (ResultImpl_array r) w)
      (completion
         (projected <- ResultImpl_prototype_ok r ;;
          OptionImpl_array projected) w) = true.
Proof.
  intros [ref [|] value] [ref' [|] value'] w; run_all; repeat split;
    try (f_equal; apply Nat.eqb_neq; lia);
    rewrite ?structEq_refl; reflexivity.
Qed.

(** X20.  [option.fromVoidable(v).unwrapOr(d)] is [d] when [v] is
    [undefined] or [null] and [v] itself otherwise, falsy values
    included. *)
Theorem fromVoidable_unwrapOr_defaults_the_missing :
  forall (v d : Value) (w : World),
    (o <- option_fromVoidable v ;; OptionImpl_unwrapOr o d) w =
      (Return (if isMissingMarker v then d else v), allocated 1 w).
Proof.
  intros v d w. destruct v as [| | | | | | |[]|[]]; reflexivity.
Qed.

(** ** [option.all] and [result.all] of wrapped values *)

Lemma map_option_some_run (values : list Value) (w : World) :
  exists options : list Option,
    map_option_some values w =
      (Return (map VOption options), allocated (List.length values) w) /\
    forallb OptionImpl_isSome options = true /\
    map OptionImpl_value options = values.
Proof.
  revert w. induction values as [|v values IH]; intros w; simpl.
  - exists []. destruct w. repeat split.
  - destruct (IH (allocated 1 w)) as (options & Hrun & Hsome & Hvalues).
    exists (mkOptionImpl (next_ref w) false v :: options).
    unfold option_some, OptionImpl_some. unfold bind, new_ref, ret. simpl.
    unfold allocated in Hrun. simpl in Hrun. rewrite Hrun.
    simpl. rewrite Hsome, Hvalues. repeat split.
    unfold allocated. simpl. do 2 f_equal. lia.
Qed.

Lemma map_result_ok_run (values : list Value) (w : World) :
  exists results : list Result,
    map_result_ok values w =
      (Return (map VResult results), allocated (List.length values) w) /\
    find ResultImpl_isErr results = None /\
    map ResultImpl_value results = values.
Proof.
  revert w. induction values as [|v values IH]; intros w; simpl.
  - exists []. destruct w. repeat split.
  - destruct (IH (allocated 1 w)) as (results & Hrun & Hok & Hvalues).
    exists (mkResultImpl (next_ref w) false v :: results).
    unfold result_ok, ResultImpl_ok. unfold bind, new_ref, ret. simpl.
    unfold allocated in Hrun. simpl in Hrun. rewrite Hrun.
    simpl. rewrite Hok, Hvalues. repeat split.
    unfold allocated. simpl. do 2 f_equal. lia.
Qed.

(** X21.  Wrapping every value of an array in [some], combining the
    [Option]s with [option.all] and unwrapping gives back the values, in
    their order, in a new array; the empty array gives a [some] of an
    empty array. *)
Theorem option_all_of_somes_unwraps_to_the_values :
  forall (values : list Value) (w : World),
    (options <- map_option_some values ;;
     all <- optionDotAll options ;;
     OptionImpl_unwrap all) w =
      (Return (VArray (List.length values + next_ref w) values),
       allocated (2 + List.length values) w) /\
    (all <- optionDotAll [] ;; ret (VOption all)) w =
      (Return
         (VOption (mkOptionImpl (S (next_ref w)) false
                     (VArray (next_ref w) []))),
       allocated 2 w).
Proof.
  intros values w. split; [|reflexivity].
  destruct (map_option_some_run values w)
    as (options & Hrun & Hsome & Hvalues).
  unfold bind at 1. rewrite Hrun.
  unfold bind. rewrite optionDotAll_is_scan, optionDotAll_scan_options.
  rewrite Hsome, Hvalues. run. reflexivity.
Qed.

(** X22.  Wrapping every value of an array in [ok], combining the
    [Result]s with [result.all] and unwrapping gives back the values, in
    their order, in a new array; the empty array gives an [ok] of an
    empty array. *)
Theorem result_all_of_oks_unwraps_to_the_values :
  forall (values : list Value) (w : World),
    (results <- map_result_ok values ;;
     all <- resultDotAll results ;;
     ResultImpl_unwrap all) w =
      (Return (VArray (List.length values + next_ref w) values),
       allocated (2 + List.length values) w) /\
    (all <- resultDotAll [] ;; ret (VResult all)) w =
      (Return
         (VResult (mkResultImpl (S (next_ref w)) false
                     (VArray (next_ref w) []))),
       allocated 2 w).
Proof.
  intros values w. split; [|reflexivity].
  destruct (map_result_ok_run values w)
    as (results & Hrun & Hok & Hvalues).
  unfold bind at 1. rewrite Hrun.
  unfold bind. rewrite resultDotAll_is_scan, resultDotAll_scan_results.
  rewrite Hok, Hvalues. run. reflexivity.
Qed.

(** ** [equalsSome] *)



(** ** The invariant of [OptionImpl] *)

Lemma optionDotAll_scan_returns_wf (rest : list Value) (values_ref : nat)
    (values : list Value) :
  returns_wf (optionDotAll_scan rest values_ref values).
Proof.
  revert values. induction rest as [|element rest IH];
    intros values w o w' Hrun; simpl in Hrun.
  - unfold OptionImpl_some, bind, new_ref, ret in Hrun. simpl in Hrun.
    now inversion Hrun.
  - unfold bind in Hrun.
    destruct (asOption element w) as [[option|thrown] w1] eqn:Hcast;
      [|discriminate].
    destruct (OptionImpl_isSome option).
    + exact (IH _ _ _ _ Hrun).
    + unfold OptionImpl_none, bind, new_ref, ret in Hrun. simpl in Hrun.
      now inversion Hrun.
Qed.

(** X24.  A [none] that the library creates stores [undefined], and the
    methods keep it so: every [Option] returned by [option.some],
    [option.none], [option.fromVoidable], [option.all], [map] and
    [filter] with any callback, [and], [or] and [xor] of two such
    [Option]s, and [ok()] and [err()] of a [Result], has the shape that
    the private constructor is called with ([OptionImpl_wf]). *)
Theorem Option_invariant_is_kept :
  forall (this other : Option) (r : Result) (v : Value)
         (options : list Value) (callback : list Value -> M Value),
    OptionImpl_wf this = true ->
    OptionImpl_wf other = true ->
    returns_wf (option_some v) /\
    returns_wf option_none /\
    returns_wf (option_fromVoidable v) /\
    returns_wf (optionDotAll options) /\
    returns_wf (OptionImpl_map this callback) /\
    returns_wf_value (OptionImpl_filter this callback) /\
    returns_wf_value (OptionImpl_and this (VOption other)) /\
    returns_wf_value (OptionImpl_or this (VOption other)) /\
    returns_wf_value (OptionImpl_xor this other) /\
    returns_wf (ResultImpl_prototype_ok r) /\
    returns_wf (ResultImpl_prototype_err r).
Proof.
  intros [ref isNone_ value] [ref' isNone_' value'] [ref'' isErr_ value'']
    v options callback Hthis Hother.
  unfold returns_wf, returns_wf_value.
  repeat split; intros w o w' Hrun.
  - run_all. now inversion Hrun.
  - run_all. now inversion Hrun.
  - run_all.
    destruct (strictEq v VUndefined || strictEq v VNull);
      now inversion Hrun.
  - rewrite optionDotAll_is_scan in Hrun.
    exact (optionDotAll_scan_returns_wf _ _ _ _ _ _ Hrun).
  - destruct isNone_; run_all.
    + inversion Hrun. subst. exact Hthis.
    + destruct (callback [value] w) as [[mapped|thrown] w1];
        now inversion Hrun.
  - destruct isNone_; run_all.
    + now inversion Hrun.
    + destruct (callback [value] w) as [[keep|thrown] w1];
        [|discriminate].
      destruct (ToBoolean keep); now inversion Hrun.
  - destruct isNone_; run_all; inversion Hrun; subst;
      [reflexivity | exact Hother].
  - destruct isNone_; run_all; inversion Hrun; subst;
      [exact Hother | exact Hthis].
  - destruct isNone_, isNone_'; run_all; inversion Hrun; subst;
      solve [reflexivity | exact Hother | exact Hthis].
  - destruct isErr_; run_all; now inversion Hrun.
  - destruct isErr_; run_all; now inversion Hrun.
Qed.

Lemma Option_invariant_is_kept_witness :
  returns_wf
    (OptionImpl_map (mkOptionImpl 0 true VUndefined) (pure_fn (fun v => v))).
Proof.
  apply (Option_invariant_is_kept
           (mkOptionImpl 0 true VUndefined) (mkOptionImpl 1 false VNull)
           (mkResultImpl 2 false VNull) VNull [] (pure_fn (fun v => v)));
    reflexivity.
Defined.

(** ** The executors, and the eager methods *)

(** X25.  [ifSome], [ifNone], [ifOk] and [ifErr] return [undefined],
    whatever their executor returns, and throw what it throws.  On the
    variant they are for, [ifSome], [ifOk] and [ifErr] run [map] or
    [mapErr] and so create one object that nobody sees, after the
    executor has returned; [ifNone] creates nothing.  On the other
    variant all four return [undefined] and leave the world as it was. *)
Theorem executors_return_undefined :
  forall (executor : list Value -> M Value)
         (absent present : Option) (success failure : Result) (w : World),
    OptionImpl_isNone absent = true ->
    OptionImpl_isSome present = true ->
    ResultImpl_isOk success = true ->
    ResultImpl_isErr failure = true ->
    let discarding (args : list Value) (extra : nat) :=
      match executor args w with
      | (Return _, w') => (Return VUndefined, allocated extra w')
      | (Throw thrown, w') => (Throw thrown, w')
      end in
    OptionImpl_ifSome present executor w =
      discarding [OptionImpl_value present] 1 /\
    OptionImpl_ifNone absent executor w = discarding [] 0 /\
    ResultImpl_ifOk success executor w =
      discarding [ResultImpl_value success] 1 /\
    ResultImpl_ifErr failure executor w =
      discarding [ResultImpl_value failure] 1 /\
    OptionImpl_ifSome absent executor w = (Return VUndefined, w) /\
    OptionImpl_ifNone present executor w = (Return VUndefined, w) /\
    ResultImpl_ifOk failure executor w = (Return VUndefined, w) /\
    ResultImpl_ifErr success executor w = (Return VUndefined, w).
Proof.
  intros executor [r1 n1 v1] [r2 n2 v2] [r3 e3 v3] [r4 e4 v4] w
    Hnone Hsome Hok Herr.
  unfold OptionImpl_isSome in Hsome. unfold ResultImpl_isOk in Hok.
  simpl in Hnone, Hsome, Hok, Herr. subst n1 e4.
  destruct n2; [discriminate|]. destruct e3; [discriminate|].
  cbv zeta. run_all. repeat split.
  - destruct (executor [v2] w) as [[a|thrown] [n calls]]; reflexivity.
  - destruct (executor [] w) as [[a|thrown] [n calls]]; reflexivity.
  - destruct (executor [v3] w) as [[a|thrown] [n calls]]; reflexivity.
  - destruct (executor [v4] w) as [[a|thrown] [n calls]]; reflexivity.
Qed.

Lemma executors_return_undefined_witness :
  OptionImpl_ifSome (mkOptionImpl 0 false (VNumber 4))
    (pure_fn (fun v => v)) (mkWorld 1 []) =
    (Return VUndefined, mkWorld 2 []).
Proof.
  apply (executors_return_undefined
           (pure_fn (fun v => v))
           (mkOptionImpl 0 true VUndefined) (mkOptionImpl 0 false (VNumber 4))
           (mkResultImpl 0 false VNull) (mkResultImpl 0 true VNull)
           (mkWorld 1 [])); reflexivity.
Defined.

(** X26.  The methods that take a value are the methods that take a
    callback, called with a callback that returns the value: [and(x)] is
    [andThen(() => x)], [or(x)] is [orElse(() => x)] and [unwrapOr(d)] is
    [unwrapOrElse(() => d)], for both classes, with the same completion
    and the same world. *)
Theorem eager_methods_are_lazy_ones_with_constants :
  forall (o : Option) (r : Result) (x : Value) (w : World),
    let constant : list Value -> M Value := fun _ => ret x in
    OptionImpl_and o x w = OptionImpl_andThen o constant w /\
    OptionImpl_or o x w = OptionImpl_orElse o constant w /\
    OptionImpl_unwrapOr o x w = OptionImpl_unwrapOrElse o constant w /\
    ResultImpl_and r x w = ResultImpl_andThen r constant w /\
    ResultImpl_or r x w = ResultImpl_orElse r constant w /\
    ResultImpl_unwrapOr r x w = ResultImpl_unwrapOrElse r constant w.
Proof.
  intros [ref [|] value] [ref' [|] value'] x w; run_all; repeat split.
Qed.
